(** * learn/training.py: training loop, early stopping, coarse aggregation

    A shallow embedding of [src/learn/training.py].  The neural network, the
    data loaders, the optimizer step, [np.mean] and [evaluation.all_metrics]
    are opaque to this file and appear as parameters of [Section Training];
    the control flow, the metric histories and the other numpy calls made by
    the module itself are modelled. *)

From Stdlib Require Import ZArith QArith Qround Bool Ascii String.
From stdpp Require Import base gmap strings list fin_maps.

Open Scope Z_scope.

(** * Part I: the program *)

(** ** Python values *)

(** A Python [float]: a finite number (an exact rational here, every double
    is one), the two infinities, or NaN.  Only comparisons and rounding to
    the nearest integer are computed on them; sums and means are not. *)
Inductive pyfloat : Type :=
| NaN
| NInf
| Fin (q : Q)
| PInf.

(** The exceptions this module can raise. *)
Inductive exn : Type :=
| ValueError
| KeyError
| IndexError
| AttributeError.

(** A 2-D array, row by row. *)
Abbreviation matrix := (list (list pyfloat)).

Module Float.

Definition isnan (x : pyfloat) : bool :=
  match x with NaN => true | _ => false end.

(** [x <= y] on floats: false as soon as one side is NaN. *)
Definition le (x y : pyfloat) : bool :=
  match x, y with
  | NaN, _ | _, NaN => false
  | NInf, _ => true
  | _, PInf => true
  | Fin a, Fin b => Qle_bool a b
  | _, _ => false
  end.

Definition ge (x y : pyfloat) : bool := le y x.

(** [x != 0]: NaN and the infinities are nonzero. *)
Definition nonzero (x : pyfloat) : bool :=
  match x with
  | Fin q => negb (Qeq_bool q 0)
  | _ => true
  end.

(** Round half to even, as [np.round] does with zero decimals. *)
Definition round_half_even (q : Q) : Z :=
  let f := Qfloor q in
  match Qcompare (q - inject_Z f) (1 # 2) with
  | Lt => f
  | Gt => f + 1
  | Eq => if Z.even f then f else f + 1
  end.

Definition round (x : pyfloat) : pyfloat :=
  match x with
  | Fin q => Fin (inject_Z (round_half_even q))
  | _ => x
  end.

End Float.

(** ** Computations that may raise *)

#[global] Instance exn_ret : MRet (sum exn) := fun A a => inr a.

#[global] Instance exn_bind : MBind (sum exn) := fun A B f m =>
  match m with
  | inr a => f a
  | inl e => inl e
  end.

(** A lookup that raises [e] when it finds nothing. *)
Definition or_raise {A : Type} (e : exn) (o : option A) : exn + A :=
  match o with
  | Some a => inr a
  | None => inl e
  end.

(** A list comprehension whose element expression may raise. *)
Fixpoint comprehension {A B : Type} (f : A -> exn + B) (l : list A) : exn + list B :=
  match l with
  | [] => inr []
  | a :: l' => b ← f a ; bs ← comprehension f l' ; mret (b :: bs)
  end.

(** ** The numpy functions the module calls *)

Module Numpy.

(** [np.isnan(a)] followed by [np.all]: true on the empty array. *)
Definition all_isnan (a : list pyfloat) : bool := forallb Float.isnan a.

(** The scan of [np.argmax]: [mp] is the best value so far, found at
    [idx]; [i] is the position of the head of [rest].  An entry replaces
    the best one when [not (entry <= mp)], and a NaN ends the scan. *)
Fixpoint argmax_scan (mp : pyfloat) (idx i : nat) (rest : list pyfloat) : nat :=
  match rest with
  | [] => idx
  | x :: rest' =>
      if negb (Float.le x mp)
      then if Float.isnan x then i else argmax_scan x i (S i) rest'
      else argmax_scan mp idx (S i) rest'
  end.

(** [np.argmax]: the first position of the maximum, a NaN being maximal;
    [ValueError] on an empty array. *)
Definition argmax (a : list pyfloat) : exn + nat :=
  match a with
  | [] => inl ValueError
  | x :: rest => if Float.isnan x then inr 0%nat else inr (argmax_scan x 0 1 rest)
  end.

Fixpoint argmin_scan (mp : pyfloat) (idx i : nat) (rest : list pyfloat) : nat :=
  match rest with
  | [] => idx
  | x :: rest' =>
      if negb (Float.ge x mp)
      then if Float.isnan x then i else argmin_scan x i (S i) rest'
      else argmin_scan mp idx (S i) rest'
  end.

(** [np.argmin], the mirror image of [argmax]. *)
Definition argmin (a : list pyfloat) : exn + nat :=
  match a with
  | [] => inl ValueError
  | x :: rest => if Float.isnan x then inr 0%nat else inr (argmin_scan x 0 1 rest)
  end.

(** [_replace_nan(a, val)] of numpy/lib/nanfunctions.py. *)
Definition replace_nan (val : pyfloat) (a : list pyfloat) : list pyfloat :=
  map (fun x => if Float.isnan x then val else x) a.

(** [np.nanargmax]: NaN entries are replaced by [-inf], an all-NaN (or
    empty) array raises [ValueError], otherwise [np.argmax] of the
    result.  numpy documents that the answer cannot be trusted when the
    array holds only NaN and [-inf]. *)
Definition nanargmax (a : list pyfloat) : exn + nat :=
  if all_isnan a then inl ValueError else argmax (replace_nan NInf a).

(** [np.nanargmin]: the same with [+inf] and [np.argmin]. *)
Definition nanargmin (a : list pyfloat) : exn + nat :=
  if all_isnan a then inl ValueError else argmin (replace_nan PInf a).

(** [np.round] on a 1-D array. *)
Definition round (a : list pyfloat) : list pyfloat := map Float.round a.

(** Positions of the nonzero entries of a 1-D array, in increasing order. *)
Fixpoint nonzero_from (i : nat) (a : list pyfloat) : list nat :=
  match a with
  | [] => []
  | x :: a' =>
      if Float.nonzero x then i :: nonzero_from (S i) a' else nonzero_from (S i) a'
  end.

(** [np.nonzero] on a 1-D array: a tuple with one array of positions per
    dimension, hence a tuple of length one. *)
Definition nonzero (a : list pyfloat) : list (list nat) := [nonzero_from 0 a].

(** [np.zeros(n)]. *)
Definition zeros (n : nat) : list pyfloat := replicate n (Fin 0).

(** [np.concatenate(arrays, axis=0)] for a Python list of 2-D arrays:
    [ValueError] when the list is empty. *)
Definition concatenate (arrays : list matrix) : exn + matrix :=
  match arrays with
  | [] => inl ValueError
  | _ => inr (concat arrays)
  end.

(** Where [row[idx]] lands in a row of [width] entries: a negative index
    counts from the end, anything outside [-width, width) is refused. *)
Definition norm_index (width : nat) (idx : Z) : option nat :=
  if (0 <=? idx) && (idx <? Z.of_nat width) then Some (Z.to_nat idx)
  else if (- Z.of_nat width <=? idx) && (idx <? 0) then Some (Z.to_nat (idx + Z.of_nat width))
  else None.

(** [row[idxs] = 1] for a Python list [idxs] of integers: [IndexError]
    when one of them is out of bounds. *)
Fixpoint assign_ones (idxs : list Z) (row : list pyfloat) : exn + list pyfloat :=
  match idxs with
  | [] => inr row
  | idx :: rest =>
      j ← or_raise IndexError (norm_index (length row) idx) ;
      assign_ones rest (<[j := Fin 1]> row)
  end.

End Numpy.

(** ** The mutable objects of a run *)

(** The three datasets built by [train_epochs]. *)
Inductive dataset : Type := DTrain | DDev | DTest.

(** What a run does to the outside world, in order: [os.mkdir(model_dir)],
    a call of [train], a call of [test] (with the dataset and the [fold]
    string it is given), a call of [persistence.save_everything] (with its
    [evaluate] and [test_only] flags) and a consultation of [early_stop]
    (with the dev history it was handed and what it answered).  Printing,
    tensorboard logging and the prediction files that [test] writes are
    left out; [save_everything] is taken to leave the history lists as
    they are. *)
Inductive event : Type :=
| EvMkdir
| EvTrain (epoch : nat)
| EvTest (ds : dataset) (fold : string) (epoch : nat)
| EvSave (evaluate test_only : bool)
| EvEarlyStop (epoch : nat) (seen : gmap string (list pyfloat)) (stop : bool).

(** The numpy entry points that [early_stop] reaches. *)
Inductive np_call : Type := NpIsnan | NpAll | NpNanargmin | NpNanargmax.

(** The three [defaultdict(lambda: [])] objects of [train_epochs]; a
    function that receives one of them receives a reference to it. *)
Inductive href : Type := HTrain | HDev | HTest.

(** [hist_train], [hist_dev], [hist_test] are the three history dicts;
    [hist_train_epochs] is the integer that [metrics_hist_train.update]
    stores under ['epochs'], the only non-list value of the three dicts. *)
Record store : Type := Store {
  hist_train : gmap string (list pyfloat);
  hist_dev : gmap string (list pyfloat);
  hist_test : gmap string (list pyfloat);
  hist_train_epochs : option Z;
  trace : list event;
  np_calls : list np_call
}.

Definition empty_store : store := Store ∅ ∅ ∅ None [] [].

Definition get_hist (r : href) (s : store) : gmap string (list pyfloat) :=
  match r with
  | HTrain => hist_train s
  | HDev => hist_dev s
  | HTest => hist_test s
  end.

Definition set_hist (r : href) (h : gmap string (list pyfloat)) (s : store) : store :=
  match r with
  | HTrain => Store h (hist_dev s) (hist_test s) (hist_train_epochs s) (trace s) (np_calls s)
  | HDev => Store (hist_train s) h (hist_test s) (hist_train_epochs s) (trace s) (np_calls s)
  | HTest => Store (hist_train s) (hist_dev s) h (hist_train_epochs s) (trace s) (np_calls s)
  end.

(** ** Computations over the store that may raise *)

Definition M (A : Type) : Type := store -> (exn + A) * store.

#[global] Instance M_ret : MRet M := fun A a s => (inr a, s).

#[global] Instance M_bind : MBind M := fun A B f m s =>
  match m s with
  | (inr a, s') => f a s'
  | (inl e, s') => (inl e, s')
  end.

(** Run a store-free computation that may raise. *)
Definition lift {A : Type} (r : exn + A) : M A := fun s => (r, s).

Definition emit (e : event) : M unit := fun s =>
  (inr tt, Store (hist_train s) (hist_dev s) (hist_test s) (hist_train_epochs s)
                 (trace s ++ [e]) (np_calls s)).

Definition np_log (c : np_call) : M unit := fun s =>
  (inr tt, Store (hist_train s) (hist_dev s) (hist_test s) (hist_train_epochs s)
                 (trace s) (np_calls s ++ [c])).

(** The dict behind a reference, as it is now. *)
Definition snapshot (r : href) : M (gmap string (list pyfloat)) := fun s =>
  (inr (get_hist r s), s).

(** [d[k]] on a [defaultdict(lambda: [])]: a missing key is inserted with
    a fresh empty list, which is returned. *)
Definition dd_get (r : href) (k : string) : M (list pyfloat) := fun s =>
  match get_hist r s !! k with
  | Some l => (inr l, s)
  | None => (inr [], set_hist r (<[k := []]> (get_hist r s)) s)
  end.

(** [d[k].append(v)]. *)
Definition dd_append (r : href) (k : string) (v : pyfloat) : M unit := fun s =>
  (inr tt, set_hist r (<[k := default [] (get_hist r s !! k) ++ [v]]> (get_hist r s)) s).

(** [for name, val in metrics.items(): d[name].append(metrics[name])]. *)
Definition append_all (r : href) (metrics : gmap string pyfloat) : M unit :=
  map_fold (fun name val (rest : M unit) => rest ;; dd_append r name val) (mret tt) metrics.

(** [metrics_hist_train.update({'epochs': n})]. *)
Definition set_train_epochs (n : Z) : M unit := fun s =>
  (inr tt, Store (hist_train s) (hist_dev s) (hist_test s) (Some n) (trace s) (np_calls s)).

(** The three fresh [defaultdict]s made at the start of [train_epochs]. *)
Definition fresh_hists : M unit := fun s =>
  (inr tt, Store ∅ ∅ ∅ None (trace s) (np_calls s)).

(** ** [early_stop] *)

(** [np.all(np.isnan(a))], [np.nanargmin(a)], [np.nanargmax(a)] as the
    module calls them. *)
Definition np_all_isnan (a : list pyfloat) : M bool :=
  np_log NpIsnan ;; np_log NpAll ;; mret (Numpy.all_isnan a).

Definition np_nanargmin (a : list pyfloat) : M nat :=
  np_log NpNanargmin ;; lift (Numpy.nanargmin a).

Definition np_nanargmax (a : list pyfloat) : M nat :=
  np_log NpNanargmax ;; lift (Numpy.nanargmax a).

Definition early_stop (metrics_hist : href) (criterion : string) (patience : Z) : M bool :=
  h ← dd_get metrics_hist criterion ;
  allnan ← np_all_isnan h ;
  if negb allnan then
    if String.eqb criterion "loss-dev" then
      h1 ← dd_get metrics_hist criterion ;
      i ← np_nanargmin h1 ;
      h2 ← dd_get metrics_hist criterion ;
      mret (Z.of_nat (length h2) - patience <? Z.of_nat i)
    else
      h1 ← dd_get metrics_hist criterion ;
      i ← np_nanargmax h1 ;
      h2 ← dd_get metrics_hist criterion ;
      mret (Z.of_nat i <? Z.of_nat (length h2) - patience)
  else
    (* keep training if criterion results have all been nan so far *)
    mret false.

(** ** Arguments and lookups *)

(** The fields of [args] that [training.py] reads for its control flow.
    [n_epochs] is a count ([range] of a negative [int] is empty, like
    [range(0)]); [test_model] and [criterion] may be [None]. *)
Record args : Type := Args {
  a_model : string;
  a_n_epochs : nat;
  a_test_model : option string;
  a_criterion : option string;
  a_patience : Z;
  a_version : string;
  a_weight_decay : pyfloat;
  a_lr : pyfloat
}.

(** The lookups of [dicts] used here: index to fine code, index to coarse
    code, coarse code to index. *)
Record dicts : Type := Dicts {
  ind2c : gmap Z string;
  ind2c_coarse : gmap Z string;
  c2ind_coarse : gmap string Z
}.

Inductive optimizer : Type :=
| Adam (weight_decay lr : pyfloat).

(** The [k] handed to [evaluation.all_metrics]: an [int] or a list. *)
Inductive kparam : Type :=
| KInt (k : Z)
| KList (ks : list Z).

(** Truth value of [args.test_model]: [None] and the empty string are false. *)
Definition truthy (o : option string) : bool :=
  match o with
  | None => false
  | Some s => negb (String.eqb s EmptyString)
  end.

(** [str(code).split('.')[0]]: the text before the first ['.']. *)
Fixpoint before_dot (code : string) : string :=
  match code with
  | EmptyString => EmptyString
  | String c rest => if Ascii.eqb c "."%char then EmptyString else String c (before_dot rest)
  end.

(** ** The coarse prediction row of a non-hierarchical model *)

(** The body of the loop at lines 264-270 of [test], for one row
    [y_hat_raw_] of the fine output; the row of [output_coarse] it leaves
    behind is returned. *)
Definition coarse_row (d : dicts) (y_hat_raw_ : list pyfloat) : exn + list pyfloat :=
  let row := Numpy.zeros (size (ind2c_coarse d)) in
  if (length (Numpy.nonzero (Numpy.round y_hat_raw_)) =? 0)%nat then
    (* continue *)
    inr row
  else
    inds ← or_raise IndexError (Numpy.nonzero (Numpy.round y_hat_raw_) !! 0%nat) ;
    codes ← comprehension (fun ind => or_raise KeyError (ind2c d !! Z.of_nat ind)) inds ;
    let codes_coarse : gset string := list_to_set (map before_dot codes) in
    codes_coarse_idx ← comprehension (fun code_coarse => or_raise KeyError (c2ind_coarse d !! code_coarse))
                                     (elements codes_coarse) ;
    Numpy.assign_ones codes_coarse_idx row.

(** [k = 5 if len(ind2c) == 50 else [8,15]]. *)
Definition choose_k (d : dicts) : kparam :=
  if (size (ind2c d) =? 50)%nat then KInt 5 else KList [8; 15].

(** The lists [test] fills batch after batch. *)
Record collected : Type := Collected {
  y_coarse : list matrix;
  yhat_coarse : list matrix;
  yhat_coarse_raw : list matrix;
  y : list matrix;
  yhat : list matrix;
  yhat_raw : list matrix;
  losses : list pyfloat
}.

(** What [training.py] takes from outside: the network, the data loaders,
    numpy's mean, [evaluation], [tools] and [datasets].  [Model] is the
    state of the network, [Batch] one batch of a data loader. *)
Class External (Model Batch : Type) : Type := {
  (** [model.hier]. *)
  hier : Model -> bool;
  (** [model(data, target, ...)] on a batch, in training mode or not: the
      fine output, the coarse output (of a hierarchical model), the loss. *)
  forward : bool -> Model -> Batch -> matrix * matrix * pyfloat;
  (** [loss.backward()] followed by [optimizer.step()]. *)
  opt_step : optimizer -> Model -> Batch -> Model;
  (** The batches a [DataLoader] over a dataset yields at a given epoch. *)
  loader : dataset -> nat -> list Batch;
  (** [target] and [target_coarse] of a batch. *)
  target : Batch -> matrix;
  target_coarse : Batch -> matrix;
  (** [evaluation.all_metrics(yhat, y, k=k, yhat_raw=yhat_raw, level=level)],
      its first result (the dict of metrics). *)
  all_metrics : matrix -> matrix -> kparam -> matrix -> string -> gmap string pyfloat;
  (** [np.mean] of a Python list of floats. *)
  np_mean : list pyfloat -> pyfloat;
  (** [tools.pick_model] and [datasets.load_lookups]. *)
  pick_model : args -> dicts -> Model;
  load_lookups : args -> dicts
}.

Section Training.

Context {Model Batch : Type} `{External Model Batch}.

(** *** [train] *)

(** The loop of [train] over the batches: [losses] is the list built so
    far.  [optimizer.zero_grad()] raises when the optimizer is [None]. *)
Fixpoint train_loop (model : Model) (opt : option optimizer) (batches : list Batch)
    (losses : list pyfloat) : exn + (list pyfloat * Model) :=
  match batches with
  | [] => inr (losses, model)
  | tup :: rest =>
      match opt with
      | None => inl AttributeError
      | Some o =>
          let '(_, _, loss) := forward true model tup in
          train_loop (opt_step o model tup) opt rest (losses ++ [loss])
      end
  end.

(** [train]: the losses it returns, and the network as it leaves it. *)
Definition train (model : Model) (opt : option optimizer) (epoch : nat)
    (ds : dataset) : exn + (list pyfloat * Model) :=
  train_loop model opt (loader ds epoch) [].

(** *** [test] *)

(** One turn of the loop of [test]. *)
Definition test_batch (model : Model) (d : dicts) (acc : collected) (tup : Batch) : exn + collected :=
  let '(output, output_coarse_hier, loss) := forward false model tup in
  output_coarse ← (if hier model then inr output_coarse_hier
                   else comprehension (coarse_row d) output) ;
  mret (Collected (y_coarse acc ++ [target_coarse tup])
                  (yhat_coarse acc ++ [map Numpy.round output_coarse])
                  (yhat_coarse_raw acc ++ [output_coarse])
                  (y acc ++ [target tup])
                  (yhat acc ++ [map Numpy.round output])
                  (yhat_raw acc ++ [output])
                  (losses acc ++ [loss])).

Fixpoint test_loop (model : Model) (d : dicts) (acc : collected) (batches : list Batch) : exn + collected :=
  match batches with
  | [] => inr acc
  | tup :: rest => acc' ← test_batch model d acc tup ; test_loop model d acc' rest
  end.

(** What [test] does with the collected lists (lines 303-320). *)
Definition test_metrics (d : dicts) (acc : collected) : exn + gmap string pyfloat :=
  let k := choose_k d in
  y_coarse_ ← Numpy.concatenate (y_coarse acc) ;
  yhat_coarse_ ← Numpy.concatenate (yhat_coarse acc) ;
  yhat_coarse_raw_ ← Numpy.concatenate (yhat_coarse_raw acc) ;
  let metrics_coarse := all_metrics yhat_coarse_ y_coarse_ k yhat_coarse_raw_ "coarse" in
  y_ ← Numpy.concatenate (y acc) ;
  yhat_ ← Numpy.concatenate (yhat acc) ;
  yhat_raw_ ← Numpy.concatenate (yhat_raw acc) ;
  let metrics := all_metrics yhat_ y_ k yhat_raw_ "fine" in
  let metrics := <["loss" := np_mean (losses acc)]> metrics in
  (* metrics.update(metrics_coarse) *)
  mret (metrics_coarse ∪ metrics).

(** [test]: the metrics dict it returns. *)
Definition test (model : Model) (epoch : nat) (ds : dataset) (d : dicts) : exn + gmap string pyfloat :=
  acc ← test_loop model d (Collected [] [] [] [] [] [] []) (loader ds epoch) ;
  test_metrics d acc.

(** *** [init] *)

(** [init]: the model, the optimizer (or [None]) and the lookups. *)
Definition init (a : args) : Model * option optimizer * dicts :=
  let d := load_lookups a in
  let model := pick_model a d in
  let opt :=
    if negb (truthy (a_test_model a)) && negb (String.eqb (a_model a) "dummy")
    then Some (Adam (a_weight_decay a) (a_lr a))
    else None in
  (model, opt, d).

(** *** [train_epochs] *)

(** The body of the epoch loop; the boolean tells whether [break] was hit. *)
Definition epoch_body (a : args) (d : dicts) (opt : option optimizer) (model : Model)
    (epoch : nat) : M (Model * bool) :=
  emit (EvTrain epoch) ;;
  '(losses, model) ← lift (train model opt epoch DTrain) ;
  let loss := np_mean losses in
  let metrics_train : gmap string pyfloat := {["loss" := loss]} in
  let fold := if String.eqb (a_version a) "mimic2" then "test" else "dev" in
  emit (EvTest DDev fold epoch) ;;
  metrics_dev ← lift (test model epoch DDev d) ;
  append_all HTrain metrics_train ;;
  set_train_epochs (Z.of_nat epoch + 1) ;;
  append_all HDev metrics_dev ;;
  emit (EvSave false false) ;;
  match a_criterion a with
  | Some criterion =>
      seen ← snapshot HDev ;
      stop ← early_stop HDev criterion (a_patience a) ;
      emit (EvEarlyStop epoch seen stop) ;;
      mret (model, stop)
  | None => mret (model, false)
  end.

(** [for epoch in range(...)]: [epoch] is the value the loop variable has
    before the next turn; the result carries its value after the loop. *)
Fixpoint epoch_loop (a : args) (d : dicts) (opt : option optimizer) (model : Model)
    (epoch : nat) (epochs : list nat) : M (Model * nat) :=
  match epochs with
  | [] => mret (model, epoch)
  | e :: rest =>
      '(model, stop) ← epoch_body a d opt model e ;
      if stop : bool then mret (model, e) else epoch_loop a d opt model e rest
  end.

(** [train_epochs]: returns [epoch+1] and [metrics_hist_test]. *)
Definition train_epochs (a : args) (model : Model) (opt : option optimizer) (d : dicts)
    : M (nat * gmap string (list pyfloat)) :=
  fresh_hists ;;
  let test_only := bool_decide (a_test_model a ≠ None) in
  let epoch := 0%nat in
  (if negb test_only then emit EvMkdir else mret tt) ;;
  '(model, epoch) ← epoch_loop a d opt model epoch
                      (seq 0 (if negb test_only then a_n_epochs a else 0)) ;
  emit (EvTest DTest "test" epoch) ;;
  metrics_test ← lift (test model epoch DTest d) ;
  append_all HTest metrics_test ;;
  emit (EvSave true test_only) ;;
  metrics_hist_test ← snapshot HTest ;
  mret ((epoch + 1)%nat, metrics_hist_test).

(** [main]: returns [metrics_hist_test]. *)
Definition main (a : args) : M (gmap string (list pyfloat)) :=
  let '(model, opt, d) := init a in
  '(epochs_trained, metrics_hist_test) ← train_epochs a model opt d ;
  mret metrics_hist_test.

End Training.

(** * Part II: the vocabulary of the properties *)

(** [metrics_hist[criterion]] as a reader finds it: the empty list when
    the key is missing. *)
Definition history (r : href) (criterion : string) (s : store) : list pyfloat :=
  default [] (get_hist r s !! criterion).

(** [no_nan a]: no entry of [a] is NaN. *)
Definition no_nan (a : list pyfloat) : Prop :=
  ∀ j y, a !! j = Some y → Float.isnan y = false.

(** [first_max a i]: [i] is the first position that holds the maximum of
    [a]. *)
Definition first_max (a : list pyfloat) (i : nat) : Prop :=
  ∃ x, a !! i = Some x
     ∧ (∀ j y, a !! j = Some y → Float.le y x = true)
     ∧ (∀ j y, (j < i)%nat → a !! j = Some y → Float.le x y = false).

(** [first_min a i]: [i] is the first position that holds the minimum. *)
Definition first_min (a : list pyfloat) (i : nat) : Prop :=
  ∃ x, a !! i = Some x
     ∧ (∀ j y, a !! j = Some y → Float.le x y = true)
     ∧ (∀ j y, (j < i)%nat → a !! j = Some y → Float.le y x = false).

(** [first_largest h i]: [i] is the position of the largest non-NaN value
    of [h], the first such position when the value occurs more than once. *)
Definition first_largest (h : list pyfloat) (i : nat) : Prop :=
  ∃ x, h !! i = Some x ∧ Float.isnan x = false
     ∧ (∀ j y, h !! j = Some y → Float.isnan y = false → Float.le y x = true)
     ∧ (∀ j y, (j < i)%nat → h !! j = Some y → Float.isnan y = false →
               Float.le x y = false).

(** [first_smallest h i]: the same for the smallest non-NaN value. *)
Definition first_smallest (h : list pyfloat) (i : nat) : Prop :=
  ∃ x, h !! i = Some x ∧ Float.isnan x = false
     ∧ (∀ j y, h !! j = Some y → Float.isnan y = false → Float.le x y = true)
     ∧ (∀ j y, (j < i)%nat → h !! j = Some y → Float.isnan y = false →
               Float.le y x = false).

(** [has_value h]: [h] contains at least one non-NaN value. *)
Definition has_value (h : list pyfloat) : Prop :=
  ∃ j y, h !! j = Some y ∧ Float.isnan y = false.

(** What [early_stop] answers on the history [h], without the store. *)
Definition early_stop_answer (h : list pyfloat) (criterion : string) (patience : Z) : exn + bool :=
  if negb (Numpy.all_isnan h) then
    if String.eqb criterion "loss-dev" then
      i ← Numpy.nanargmin h ; mret (Z.of_nat (length h) - patience <? Z.of_nat i)
    else
      i ← Numpy.nanargmax h ; mret (Z.of_nat i <? Z.of_nat (length h) - patience)
  else inr false.

(** A store whose dev history is [h] and that holds nothing else. *)
Definition with_dev (h : gmap string (list pyfloat)) : store :=
  Store ∅ h ∅ None [] [].

(** The store after [metrics_hist[criterion]] has been read once. *)
Definition touch (r : href) (criterion : string) (s : store) : store :=
  match get_hist r s !! criterion with
  | Some _ => s
  | None => set_hist r (<[criterion := []]> (get_hist r s)) s
  end.

(** The store after the numpy calls [cs] have been made. *)
Definition add_calls (cs : list np_call) (s : store) : store :=
  Store (hist_train s) (hist_dev s) (hist_test s) (hist_train_epochs s)
        (trace s) (np_calls s ++ cs).

(** The numpy calls of one run of [early_stop] on the history [h]. *)
Definition early_stop_calls (h : list pyfloat) (criterion : string) : list np_call :=
  [NpIsnan; NpAll] ++
  (if negb (Numpy.all_isnan h)
   then [if String.eqb criterion "loss-dev" then NpNanargmin else NpNanargmax]
   else []).

(** [stops_iff_old best r c p s]: on the store [s], [early_stop] returns,
    and it returns [True] exactly when the position singled out by [best]
    in the history of [c] is strictly less than [len(h) - p]. *)
Definition stops_iff_old (best : list pyfloat → nat → Prop)
    (r : href) (c : string) (p : Z) (s : store) : Prop :=
  ∃ b, (early_stop r c p s).1 = inr b
     ∧ (b = true ↔
        ∃ i, best (history r c s) i
           ∧ Z.of_nat i < Z.of_nat (length (history r c s)) - p).

(** The rule for maximized criteria as a reader would state it: it holds
    of every history with a non-NaN value. *)
Definition max_rule_on_every_history : Prop :=
  ∀ r c p s, c ≠ "loss-dev" → has_value (history r c s) →
    stops_iff_old first_largest r c p s.

(** The same rule for the minimized criterion ['loss-dev']. *)
Definition min_rule_on_every_history : Prop :=
  ∀ r p s, has_value (history r "loss-dev" s) →
    stops_iff_old first_smallest r "loss-dev" p s.

(** [coarse_hit d row j]: some fine code whose rounded score in [row] is
    nonzero has a prefix [s] (the text before its first ['.']) for which
    [c2ind_coarse[s]], used as a Python index into a row of
    [len(ind2c_coarse)] entries, designates position [j]. *)
Definition coarse_hit (d : dicts) (row : list pyfloat) (j : nat) : Prop :=
  ∃ ind x code v,
    row !! ind = Some x ∧ Float.nonzero (Float.round x) = true
    ∧ ind2c d !! Z.of_nat ind = Some code
    ∧ c2ind_coarse d !! before_dot code = Some v
    ∧ Numpy.norm_index (size (ind2c_coarse d)) v = Some j.

(** [marks_prefixes d row out]: [out] is a row of [len(ind2c_coarse)]
    entries that holds 1 at the positions hit from [row] and 0 at every
    other position. *)
Definition marks_prefixes (d : dicts) (row out : list pyfloat) : Prop :=
  length out = size (ind2c_coarse d)
  ∧ ∀ j, (j < size (ind2c_coarse d))%nat →
      (coarse_hit d row j → out !! j = Some (Fin 1))
      ∧ (¬ coarse_hit d row j → out !! j = Some (Fin 0)).

(** [lookups_succeed d row]: the two dict lookups and the index assignment
    of the aggregation loop raise nothing on [row]. *)
Definition lookups_succeed (d : dicts) (row : list pyfloat) : Prop :=
  ∀ ind x, row !! ind = Some x → Float.nonzero (Float.round x) = true →
    ∃ code v, ind2c d !! Z.of_nat ind = Some code
            ∧ c2ind_coarse d !! before_dot code = Some v
            ∧ is_Some (Numpy.norm_index (size (ind2c_coarse d)) v).

(** A history dict after one value per metric of [metrics] has been
    appended to it. *)
Definition appended (metrics : gmap string pyfloat) (h : gmap string (list pyfloat))
    : gmap string (list pyfloat) :=
  map_fold (fun name val acc => <[name := default [] (acc !! name) ++ [val]]> acc) h metrics.

(** The [fold] string of the evaluation made in every epoch. *)
Definition dev_fold (a : args) : string :=
  if String.eqb (a_version a) "mimic2" then "test" else "dev".

(** The events of epoch [e], in order: the training pass, the evaluation
    on the dev set, the save, and the consultation of [early_stop] when
    there is a criterion ([seen] and [stop] are what it saw and answered). *)
Definition epoch_events (a : args) (e : nat) (seen : gmap string (list pyfloat))
    (stop : bool) : list event :=
  [EvTrain e; EvTest DDev (dev_fold a) e; EvSave false false] ++
  match a_criterion a with
  | Some _ => [EvEarlyStop e seen stop]
  | None => []
  end.

(** The events of consecutive epochs from [start] on, one entry of [log]
    per epoch. *)
Fixpoint epochs_events (a : args) (start : nat)
    (log : list (gmap string (list pyfloat) * bool)) : list event :=
  match log with
  | [] => []
  | (seen, stop) :: rest => epoch_events a start seen stop ++ epochs_events a (S start) rest
  end.

Definition is_train (ev : event) : bool :=
  match ev with EvTrain _ => true | _ => false end.

Definition is_test_eval (ev : event) : bool :=
  match ev with EvTest DTest _ _ => true | _ => false end.

(** Number of calls of [train] in a trace. *)
Definition count_train (tr : list event) : nat := length (List.filter is_train tr).

(** Number of evaluations on the test set in a trace. *)
Definition count_test_eval (tr : list event) : nat := length (List.filter is_test_eval tr).

Section TrainingVocabulary.

Context {Model Batch : Type} `{External Model Batch}.

(** The evaluations of a run raise nothing: [test] returns a dict on the
    dev and on the test set, whatever the state of the network. *)
Definition evaluations_return (d : dicts) : Prop :=
  ∀ (model : Model) epoch ds, ds ≠ DTrain → ∃ metrics, test model epoch ds d = inr metrics.

(** [test] on the dev set returns the metric [name] every time. *)
Definition always_returned (d : dicts) (name : string) : Prop :=
  ∀ (model : Model) epoch metrics, test model epoch DDev d = inr metrics → is_Some (metrics !! name).

(** [test] on the dev set never returns the metric [name]. *)
Definition never_returned (d : dicts) (name : string) : Prop :=
  ∀ (model : Model) epoch metrics, test model epoch DDev d = inr metrics → metrics !! name = None.

(** The losses [train] computes batch after batch, the network being
    updated after each of them. *)
Fixpoint batch_losses (o : optimizer) (model : Model) (batches : list Batch) : list pyfloat :=
  match batches with
  | [] => []
  | tup :: rest => (forward true model tup).2 :: batch_losses o (opt_step o model tup) rest
  end.

End TrainingVocabulary.

(** What the consultation of [early_stop] at the end of an epoch answers
    when the dev history is [seen]; [False] when there is no criterion. *)
Definition stop_answer (a : args) (seen : gmap string (list pyfloat)) : bool :=
  match a_criterion a with
  | Some c =>
      match early_stop_answer (default [] (seen !! c)) c (a_patience a) with
      | inr b => b
      | inl _ => false
      end
  | None => false
  end.

(** The value of the loop variable [epoch] after a loop that started at
    [start] and made one turn per entry of [log]; [epoch0] is the value it
    had before the loop. *)
Definition last_epoch {A : Type} (epoch0 start : nat) (log : list A) : nat :=
  match log with
  | [] => epoch0
  | _ => (start + length log - 1)%nat
  end.

Section RunVocabulary.

Context {Model Batch : Type} `{External Model Batch}.


(** [histories_grow a model opt d s]: started on the store [s],
    [train_epochs] returns after one turn of the epoch loop per entry of
    [log]; the dev history that [early_stop] is handed after epoch [i]
    holds [i + 1] values for every metric that [test] always returns; and
    when the criterion is a metric that [test] never returns, that
    history is empty at every epoch, [early_stop] answers [False] every
    time, and all [n_epochs] epochs are run. *)
Definition histories_grow (a : args) (model : Model) (opt : option optimizer)
    (d : dicts) (s : store) : Prop :=
  ∃ log ret s',
    train_epochs a model opt d s = (inr ret, s')
    ∧ trace s' = trace s ++ [EvMkdir] ++ epochs_events a 0 log
                 ++ [EvTest DTest "test" (length log - 1); EvSave true false]
    ∧ (∀ i seen stop name, log !! i = Some (seen, stop) →
         always_returned (Model := Model) d name →
         length (default [] (seen !! name)) = S i)
    ∧ (∀ c, a_criterion a = Some c → never_returned (Model := Model) d c →
         length log = a_n_epochs a
         ∧ ∀ i seen stop, log !! i = Some (seen, stop) →
             default [] (seen !! c) = [] ∧ stop = false).

(** [epoch_records_mean_loss a d o model e s]: in epoch [e], [train]
    returns the list of the losses of the batches of the training loader,
    one per batch and in order, and the value the epoch appends to
    [metrics_hist_train['loss']] is [np.mean] of that list. *)
Definition epoch_records_mean_loss (a : args) (d : dicts) (o : optimizer) (model : Model)
    (e : nat) (s : store) : Prop :=
  ∃ losses model' stop s',
    train model (Some o) e DTrain = inr (losses, model')
    ∧ losses = batch_losses o model (loader DTrain e)
    ∧ length losses = length (loader DTrain e)
    ∧ epoch_body a d (Some o) model e s = (inr (model', stop), s')
    ∧ history HTrain "loss" s' = history HTrain "loss" s ++ [np_mean losses].

(** [only_tests a model opt d s]: started on the store [s], [train_epochs]
    returns 1 as the number of epochs trained, and all it does is one
    evaluation on the test set followed by the final save: no directory
    is made and [train] is not called. *)
Definition only_tests (a : args) (model : Model) (opt : option optimizer)
    (d : dicts) (s : store) : Prop :=
  ∃ hist s',
    train_epochs a model opt d s = (inr (1%nat, hist), s')
    ∧ trace s' = trace s ++ [EvTest DTest "test" 0; EvSave true true]
    ∧ count_train (drop (length (trace s)) (trace s')) = 0%nat.

End RunVocabulary.

(** [init] builds no optimizer as soon as [args.test_model] is not [None]. *)
Definition no_optimizer_when_test_model_set : Prop :=
  ∀ (Model Batch : Type) (H : External Model Batch) (a : args),
    a_test_model a ≠ None → (init a).1.2 = None.

(** ** A small setting to run the program on *)

(** Three fine codes under two coarse codes. *)
Definition toy_dicts : dicts :=
  Dicts (list_to_map [(0, "401.9"); (1, "401.1"); (2, "250.00")])
        (list_to_map [(0, "401"); (1, "250")])
        (list_to_map [("401", 0); ("250", 1)]).

(** The mean of finite values, computed exactly; NaN otherwise. *)
Definition exact_mean (l : list pyfloat) : pyfloat :=
  match l with
  | [] => NaN
  | _ =>
      match foldr (fun x acc => match x, acc with
                                | Fin q, Some t => Some (q + t)%Q
                                | _, _ => None
                                end) (Some 0%Q) l with
      | Some t => Fin (Qred (t / inject_Z (Z.of_nat (length l))))
      | None => NaN
      end
  end.

(** A network whose state counts the optimizer steps; every batch gets the
    same one-row output, and the loss of a batch is its number. *)
Definition toy_external : External nat nat := {|
  hier := fun _ => false;
  forward := fun _ _ tup =>
    ([[Fin 0.75; Fin 0.25; Fin 0.9]], [], Fin (inject_Z (Z.of_nat tup)));
  opt_step := fun _ steps _ => S steps;
  loader := fun _ _ => [0%nat; 1%nat];
  target := fun _ => [[Fin 1; Fin 0; Fin 0]];
  target_coarse := fun _ => [[Fin 1; Fin 0]];
  all_metrics := fun _ _ _ _ level => {[ String.append "f1_micro_" level := Fin 0.5 ]};
  np_mean := exact_mean;
  pick_model := fun _ _ => 0%nat;
  load_lookups := fun _ => toy_dicts
|}.

Definition toy_args (n_epochs : nat) (test_model criterion : option string) : args :=
  Args "conv_attn" n_epochs test_model criterion 1 "mimic3" (Fin 0) (Fin 0.001).

(** ** Further vocabulary *)

(** The events a run has added to the trace of the store it started on. *)
Definition new_events (s s' : store) : list event :=
  drop (length (trace s)) (trace s').

(** The save made at the very end of [train_epochs] ([evaluate=True]). *)
Definition is_final_save (ev : event) : bool :=
  match ev with EvSave true _ => true | _ => false end.

(** [has_dot s]: the character ['.'] occurs in [s]. *)
Fixpoint has_dot (s : string) : bool :=
  match s with
  | EmptyString => false
  | String c rest => Ascii.eqb c "."%char || has_dot rest
  end.

(** [binary_row out]: every entry of [out] is 0 or 1. *)
Definition binary_row (out : list pyfloat) : Prop :=
  ∀ j v, out !! j = Some v → v = Fin 0 ∨ v = Fin 1.

(** Number of final saves in a list of events. *)
Definition count_final_save (evs : list event) : nat :=
  length (List.filter is_final_save evs).

(** An event of the epoch loop: neither the evaluation on the test set
    nor the final save. *)
Definition epoch_event (ev : event) : Prop :=
  is_final_save ev = false ∧ is_test_eval ev = false.

Section FurtherRunVocabulary.

Context {Model Batch : Type} `{External Model Batch}.

(** [counts_epochs a model opt d s]: started on the store [s],
    [train_epochs] returns; the number it returns is the number of epochs
    it ran, or 1 when it ran none; the history dict it returns is
    [metrics_hist_test] as the run leaves it, and every list in it holds
    exactly one value. *)
Definition counts_epochs (a : args) (model : Model) (opt : option optimizer)
    (d : dicts) (s : store) : Prop :=
  ∃ ret s',
    train_epochs a model opt d s = (inr ret, s')
    ∧ ret.1 = Nat.max 1 (count_train (new_events s s'))
    ∧ hist_test s' = ret.2
    ∧ ∀ name l, ret.2 !! name = Some l → length l = 1%nat.

(** [records_train_history a model opt d s]: started on the store [s],
    [train_epochs] returns, and it leaves in [metrics_hist_train] one loss
    per epoch it ran and, under ['epochs'], the number of epochs it ran
    (no such entry when it ran none). *)
Definition records_train_history (a : args) (model : Model) (opt : option optimizer)
    (d : dicts) (s : store) : Prop :=
  ∃ ret s',
    train_epochs a model opt d s = (inr ret, s')
    ∧ length (history HTrain "loss" s') = count_train (new_events s s')
    ∧ hist_train_epochs s'
      = (if decide (count_train (new_events s s') = 0%nat) then None
         else Some (Z.of_nat (count_train (new_events s s')))).

(** [runs_all_epochs a model opt d s]: started on the store [s],
    [train_epochs] returns after exactly [n_epochs] epochs, and no numpy
    call of [early_stop] was made. *)
Definition runs_all_epochs (a : args) (model : Model) (opt : option optimizer)
    (d : dicts) (s : store) : Prop :=
  ∃ ret s',
    train_epochs a model opt d s = (inr ret, s')
    ∧ count_train (new_events s s') = a_n_epochs a
    ∧ np_calls s' = np_calls s.

End FurtherRunVocabulary.

(** ** The vocabulary of the metrics dict of [test] *)

Section TestVocabulary.

Context {Model Batch : Type} `{External Model Batch}.






End TestVocabulary.


(** * Part III: properties *)

(** ** The order on floats *)

Module FloatFacts.

Lemma le_refl x : Float.isnan x = false → Float.le x x = true.
Proof.
  destruct x as [| |q|]; simpl; try done.
  intros _. apply Qle_bool_iff, Qle_refl.
Qed.

Lemma le_trans x y z :
  Float.le x y = true → Float.le y z = true → Float.le x z = true.
Proof.
  destruct x as [| |a|], y as [| |b|], z as [| |c|]; simpl; try done.
  rewrite !Qle_bool_iff. apply Qle_trans.
Qed.

Lemma le_total x y :
  Float.isnan x = false → Float.isnan y = false →
  Float.le x y = true ∨ Float.le y x = true.
Proof.
  destruct x as [| |a|], y as [| |b|]; simpl; try done; try (by left); try (by right).
  intros _ _. rewrite !Qle_bool_iff.
  destruct (Qlt_le_dec a b) as [H|H]; [left; by apply Qlt_le_weak | by right].
Qed.

Lemma le_ninf x : Float.le x NInf = true → x = NInf.
Proof. by destruct x. Qed.

Lemma pinf_le x : Float.le PInf x = true → x = PInf.
Proof. by destruct x. Qed.

End FloatFacts.

(** ** What [np.argmax] and [np.argmin] return *)

Section Argmax.
Import Numpy FloatFacts.

Lemma argmax_scan_spec rest : ∀ pre mp idx,
  no_nan (pre ++ rest) →
  pre !! idx = Some mp →
  (∀ j y, pre !! j = Some y → Float.le y mp = true) →
  (∀ j y, (j < idx)%nat → pre !! j = Some y → Float.le mp y = false) →
  first_max (pre ++ rest) (argmax_scan mp idx (length pre) rest).
Proof.
  induction rest as [|x rest IH]; intros pre mp idx Hnn Hidx Hmax Hfirst.
  - simpl. rewrite app_nil_r. exists mp. eauto.
  - assert (Hx : Float.isnan x = false).
    { apply (Hnn (length pre)). by rewrite list_lookup_middle. }
    assert (Hmp : Float.isnan mp = false).
    { apply (Hnn idx). by apply lookup_app_l_Some. }
    simpl. rewrite Hx.
    replace (pre ++ x :: rest) with ((pre ++ [x]) ++ rest) in * by by rewrite <- app_assoc.
    replace (S (length pre)) with (length (pre ++ [x])) by (rewrite length_app; simpl; lia).
    destruct (Float.le x mp) eqn:Hle; simpl.
    + apply IH; try done.
      * by apply lookup_app_l_Some.
      * intros j y Hj. apply lookup_app_Some in Hj as [Hj | [_ Hj]]; [by eapply Hmax|].
        apply list_lookup_singleton_Some in Hj as [_ <-]. done.
      * intros j y Hlt Hj. apply lookup_app_Some in Hj as [Hj | [Hge _]]; [by eapply Hfirst|].
        apply lookup_lt_Some in Hidx. lia.
    + assert (Hmx : Float.le mp x = true).
      { destruct (le_total x mp Hx Hmp) as [H|H]; congruence. }
      apply IH; try done.
      * apply list_lookup_middle. done.
      * intros j y Hj. apply lookup_app_Some in Hj as [Hj | [_ Hj]].
        -- eapply le_trans; [by eapply Hmax | done].
        -- apply list_lookup_singleton_Some in Hj as [_ <-]. by apply le_refl.
      * intros j y Hlt Hj. apply lookup_app_Some in Hj as [Hj | [Hge _]]; [|lia].
        destruct (Float.le x y) eqn:Hxy; [|done].
        rewrite (le_trans x y mp Hxy (Hmax _ _ Hj)) in Hle. done.
Qed.

Lemma argmax_spec a :
  a ≠ [] → no_nan a → ∃ i, argmax a = inr i ∧ first_max a i.
Proof.
  destruct a as [|x rest]; [done|]. intros _ Hnn.
  assert (Hx : Float.isnan x = false) by apply (Hnn 0%nat x eq_refl).
  simpl. rewrite Hx. eexists; split; [done|].
  apply (argmax_scan_spec rest [x] x 0%nat); try done.
  - intros j y Hj. apply list_lookup_singleton_Some in Hj as [_ <-]. by apply le_refl.
  - intros; lia.
Qed.

Lemma argmin_scan_spec rest : ∀ pre mp idx,
  no_nan (pre ++ rest) →
  pre !! idx = Some mp →
  (∀ j y, pre !! j = Some y → Float.le mp y = true) →
  (∀ j y, (j < idx)%nat → pre !! j = Some y → Float.le y mp = false) →
  first_min (pre ++ rest) (argmin_scan mp idx (length pre) rest).
Proof.
  induction rest as [|x rest IH]; intros pre mp idx Hnn Hidx Hmin Hfirst.
  - simpl. rewrite app_nil_r. exists mp. eauto.
  - assert (Hx : Float.isnan x = false).
    { apply (Hnn (length pre)). by rewrite list_lookup_middle. }
    assert (Hmp : Float.isnan mp = false).
    { apply (Hnn idx). by apply lookup_app_l_Some. }
    simpl. rewrite Hx. unfold Float.ge.
    replace (pre ++ x :: rest) with ((pre ++ [x]) ++ rest) in * by by rewrite <- app_assoc.
    replace (S (length pre)) with (length (pre ++ [x])) by (rewrite length_app; simpl; lia).
    destruct (Float.le mp x) eqn:Hle; simpl.
    + apply IH; try done.
      * by apply lookup_app_l_Some.
      * intros j y Hj. apply lookup_app_Some in Hj as [Hj | [_ Hj]]; [by eapply Hmin|].
        apply list_lookup_singleton_Some in Hj as [_ <-]. done.
      * intros j y Hlt Hj. apply lookup_app_Some in Hj as [Hj | [Hge _]]; [by eapply Hfirst|].
        apply lookup_lt_Some in Hidx. lia.
    + assert (Hmx : Float.le x mp = true).
      { destruct (le_total x mp Hx Hmp) as [H|H]; congruence. }
      apply IH; try done.
      * apply list_lookup_middle. done.
      * intros j y Hj. apply lookup_app_Some in Hj as [Hj | [_ Hj]].
        -- eapply le_trans; [done | by eapply Hmin].
        -- apply list_lookup_singleton_Some in Hj as [_ <-]. by apply le_refl.
      * intros j y Hlt Hj. apply lookup_app_Some in Hj as [Hj | [Hge _]]; [|lia].
        destruct (Float.le y x) eqn:Hxy; [|done].
        rewrite (le_trans mp y x (Hmin _ _ Hj) Hxy) in Hle. done.
Qed.

Lemma argmin_spec a :
  a ≠ [] → no_nan a → ∃ i, argmin a = inr i ∧ first_min a i.
Proof.
  destruct a as [|x rest]; [done|]. intros _ Hnn.
  assert (Hx : Float.isnan x = false) by apply (Hnn 0%nat x eq_refl).
  simpl. rewrite Hx. eexists; split; [done|].
  apply (argmin_scan_spec rest [x] x 0%nat); try done.
  - intros j y Hj. apply list_lookup_singleton_Some in Hj as [_ <-]. by apply le_refl.
  - intros; lia.
Qed.

End Argmax.

(** ** What [np.nanargmax] and [np.nanargmin] return *)

Section NanArg.
Import Numpy FloatFacts.

Lemma lookup_replace_nan v a j :
  replace_nan v a !! j = (fun x => if Float.isnan x then v else x) <$> a !! j.
Proof.
  revert j. induction a as [|x a IH]; intros [|j]; simpl; try done.
Qed.

Lemma no_nan_replace v a : Float.isnan v = false → no_nan (replace_nan v a).
Proof.
  intros Hv j y. rewrite lookup_replace_nan.
  destruct (a !! j) as [x|]; simpl; [|done].
  intros [= <-]. by destruct (Float.isnan x) eqn:E.
Qed.

Lemma all_isnan_true a :
  all_isnan a = true ↔ ∀ j y, a !! j = Some y → Float.isnan y = true.
Proof.
  unfold all_isnan. induction a as [|x a IH]; simpl.
  - split; [intros _ j y; by rewrite lookup_nil | done].
  - rewrite andb_true_iff, IH. split.
    + intros [Hx Ha] [|j] y; simpl; [by intros [= <-] | apply Ha].
    + intros H. split; [apply (H 0%nat x eq_refl) | intros j y; apply (H (S j) y)].
Qed.

Lemma all_isnan_has_value a : has_value a → all_isnan a = false.
Proof.
  intros (j & y & Hj & Hy). destruct (all_isnan a) eqn:E; [|done].
  rewrite all_isnan_true in E. rewrite (E _ _ Hj) in Hy. done.
Qed.

Lemma all_isnan_false a : all_isnan a = false → has_value a.
Proof.
  unfold all_isnan, has_value. induction a as [|x a IH]; simpl; [done|].
  destruct (Float.isnan x) eqn:Hx; simpl.
  - intros H. destruct (IH H) as (j & y & Hj & Hy). by exists (S j), y.
  - intros _. by exists 0%nat, x.
Qed.

Lemma nanargmax_spec h :
  (∃ j y, h !! j = Some y ∧ Float.isnan y = false ∧ y ≠ NInf) →
  ∃ i, nanargmax h = inr i ∧ first_largest h i.
Proof.
  intros (j0 & y0 & Hj0 & Hy0 & Hninf).
  unfold nanargmax. rewrite all_isnan_has_value by by exists j0, y0.
  destruct (argmax_spec (replace_nan NInf h)) as (i & Hi & x & Hx & Hmax & Hfirst).
  { intros E. pose proof (lookup_replace_nan NInf h j0) as L.
    rewrite E, Hj0 in L. done. }
  { by apply no_nan_replace. }
  exists i. split; [done|].
  assert (Hy0x : Float.le y0 x = true).
  { apply (Hmax j0). rewrite lookup_replace_nan, Hj0. simpl. by rewrite Hy0. }
  rewrite lookup_replace_nan in Hx.
  destruct (h !! i) as [xi|] eqn:Hxi; simpl in Hx; [|done].
  injection Hx as Hx.
  destruct (Float.isnan xi) eqn:Hnan.
  { subst x. apply le_ninf in Hy0x. done. }
  subst xi. exists x. repeat split; try done.
  - intros j y Hj Hy. apply (Hmax j). rewrite lookup_replace_nan, Hj. simpl. by rewrite Hy.
  - intros j y Hlt Hj Hy. apply (Hfirst j); [done|].
    rewrite lookup_replace_nan, Hj. simpl. by rewrite Hy.
Qed.

Lemma nanargmin_spec h :
  (∃ j y, h !! j = Some y ∧ Float.isnan y = false ∧ y ≠ PInf) →
  ∃ i, nanargmin h = inr i ∧ first_smallest h i.
Proof.
  intros (j0 & y0 & Hj0 & Hy0 & Hninf).
  unfold nanargmin. rewrite all_isnan_has_value by by exists j0, y0.
  destruct (argmin_spec (replace_nan PInf h)) as (i & Hi & x & Hx & Hmin & Hfirst).
  { intros E. pose proof (lookup_replace_nan PInf h j0) as L.
    rewrite E, Hj0 in L. done. }
  { by apply no_nan_replace. }
  exists i. split; [done|].
  assert (Hy0x : Float.le x y0 = true).
  { apply (Hmin j0). rewrite lookup_replace_nan, Hj0. simpl. by rewrite Hy0. }
  rewrite lookup_replace_nan in Hx.
  destruct (h !! i) as [xi|] eqn:Hxi; simpl in Hx; [|done].
  injection Hx as Hx.
  destruct (Float.isnan xi) eqn:Hnan.
  { subst x. apply pinf_le in Hy0x. done. }
  subst xi. exists x. repeat split; try done.
  - intros j y Hj Hy. apply (Hmin j). rewrite lookup_replace_nan, Hj. simpl. by rewrite Hy.
  - intros j y Hlt Hj Hy. apply (Hfirst j); [done|].
    rewrite lookup_replace_nan, Hj. simpl. by rewrite Hy.
Qed.

(** On a history with a value, neither call raises. *)
Lemma nanargmax_returns h : has_value h → ∃ i, nanargmax h = inr i.
Proof.
  intros Hv. unfold nanargmax. rewrite (all_isnan_has_value _ Hv).
  destruct h as [|x h]; [by destruct Hv as (j & y & Hj & _)|].
  simpl. destruct (Float.isnan (if Float.isnan x then NInf else x)); eauto.
Qed.

Lemma nanargmin_returns h : has_value h → ∃ i, nanargmin h = inr i.
Proof.
  intros Hv. unfold nanargmin. rewrite (all_isnan_has_value _ Hv).
  destruct h as [|x h]; [by destruct Hv as (j & y & Hj & _)|].
  simpl. destruct (Float.isnan (if Float.isnan x then PInf else x)); eauto.
Qed.

Lemma first_largest_unique h i j : first_largest h i → first_largest h j → i = j.
Proof.
  intros (x & Hx & Hnx & Hmx & Hfx) (y & Hy & Hny & Hmy & Hfy).
  destruct (Nat.lt_trichotomy i j) as [Hlt | [Heq | Hgt]]; [|done|].
  - pose proof (Hfy i x Hlt Hx Hnx) as H1. pose proof (Hmx j y Hy Hny) as H2. congruence.
  - pose proof (Hfx j y Hgt Hy Hny) as H1. pose proof (Hmy i x Hx Hnx) as H2. congruence.
Qed.

Lemma first_smallest_unique h i j : first_smallest h i → first_smallest h j → i = j.
Proof.
  intros (x & Hx & Hnx & Hmx & Hfx) (y & Hy & Hny & Hmy & Hfy).
  destruct (Nat.lt_trichotomy i j) as [Hlt | [Heq | Hgt]]; [|done|].
  - pose proof (Hfy i x Hlt Hx Hnx) as H1. pose proof (Hmx j y Hy Hny) as H2. congruence.
  - pose proof (Hfx j y Hgt Hy Hny) as H1. pose proof (Hmy i x Hx Hnx) as H2. congruence.
Qed.

End NanArg.

(** ** [early_stop] on the store *)

Section EarlyStop.
Import Numpy.

Lemma early_stop_answer_returns h c p : ∃ b, early_stop_answer h c p = inr b.
Proof.
  unfold early_stop_answer. destruct (all_isnan h) eqn:E; simpl; [eauto|].
  apply all_isnan_false in E.
  destruct (String.eqb c "loss-dev").
  - destruct (nanargmin_returns h E) as [i ->]. simpl. eauto.
  - destruct (nanargmax_returns h E) as [i ->]. simpl. eauto.
Qed.

(** [early_stop] reads the history of the criterion, answers as
    [early_stop_answer] does, leaves the key behind when it was missing,
    and makes the numpy calls of [early_stop_calls]. *)
Lemma early_stop_run r c p s :
  early_stop r c p s =
  (early_stop_answer (history r c s) c p,
   add_calls (early_stop_calls (history r c s) c) (touch r c s)).
Proof.
  destruct (early_stop_answer_returns (history r c s) c p) as [b Hb].
  revert Hb. unfold early_stop_answer, early_stop_calls, early_stop, history, touch, add_calls.
  unfold mbind, M_bind, mret, M_ret, dd_get, np_all_isnan, np_nanargmin, np_nanargmax, np_log, lift.
  destruct r, s as [ht hd hs he tr np]; simpl;
    (destruct (_ !! c) as [h|] eqn:Hc; simpl;
     [ destruct (all_isnan h) eqn:Hall; simpl;
       [ by rewrite <- ?app_assoc
       | destruct (String.eqb c "loss-dev"); simpl; rewrite ?Hc;
         [ destruct (nanargmin h) eqn:E | destruct (nanargmax h) eqn:E ]; simpl;
         try done; rewrite ?Hc; simpl; by rewrite <- ?app_assoc ]
     | by rewrite <- ?app_assoc ]).
Qed.

End EarlyStop.

(** ** The early-stopping rule *)

Section EarlyStopRule.
Import Numpy.

(** C1, as amended.  For a criterion other than ['loss-dev'], a history
    that holds at least one value that is neither NaN nor [-inf], and any
    patience [p], [early_stop] returns, and it returns [True] if and only
    if the first position of the largest non-NaN value of the history is
    strictly less than [len(h) - p]. *)
Theorem early_stop_max_rule r c p s :
  c ≠ "loss-dev" →
  (∃ j y, history r c s !! j = Some y ∧ Float.isnan y = false ∧ y ≠ NInf) →
  stops_iff_old first_largest r c p s.
Proof.
  intros Hc Hv. unfold stops_iff_old. rewrite early_stop_run. simpl.
  set (h := history r c s) in *.
  destruct (nanargmax_spec h Hv) as (i & Hi & Hbest).
  unfold early_stop_answer.
  rewrite all_isnan_has_value by (destruct Hv as (j & y & ? & ? & _); by exists j, y).
  apply String.eqb_neq in Hc. rewrite Hc, Hi. simpl.
  eexists; split; [done|]. rewrite Z.ltb_lt. split.
  - intros Hlt. by exists i.
  - intros (i' & Hbest' & Hlt). by rewrite (first_largest_unique h i i').
Qed.

(** C1, where the rule as stated breaks: on the history [[nan, -inf]] with
    patience 1, [np.nanargmax] answers 0, the position of the NaN, and
    [early_stop] returns [True]; the largest non-NaN value sits at
    position 1, which is not less than [2 - 1]. *)
Lemma early_stop_max_rule_breaks : ¬ max_rule_on_every_history.
Proof.
  intros H.
  destruct (H HDev "f1_micro" 1 (with_dev {["f1_micro" := [NaN; NInf]]}))
    as (b & Hb & Hiff).
  - discriminate.
  - exists 1%nat, NInf. by vm_compute.
  - vm_compute in Hb. injection Hb as <-.
    destruct Hiff as [Hstop _]. destruct (Hstop eq_refl) as (i & (x & Hx & Hnan & _) & Hlt).
    vm_compute in Hx, Hlt. destruct i as [|[|i]]; simplify_eq; try done.
    all: by destruct i.
Qed.

(** C2, on the code: with the dev losses [1, 2, 3, 4] and patience 1 the
    smallest loss sits at position 0, which is less than [4 - 1], yet
    [early_stop] returns [False]: the ['loss-dev'] branch compares with
    [>] where the other branch compares with [<]. *)
Theorem early_stop_loss_dev_keeps_training :
  let h := [Fin 1; Fin 2; Fin 3; Fin 4] in
  first_smallest h 0
  ∧ (0 < Z.of_nat (length h) - 1)
  ∧ (early_stop HDev "loss-dev" 1 (with_dev {["loss-dev" := h]})).1 = inr false.
Proof.
  split; [|split; [done | by vm_compute]].
  exists (Fin 1). repeat split; try done.
  - intros j y Hj _. destruct j as [|[|[|[|j]]]]; simplify_eq/=; done.
  - intros; lia.
Qed.

(** Hence the rule for a minimized criterion does not hold of the code. *)
Lemma early_stop_min_rule_breaks : ¬ min_rule_on_every_history.
Proof.
  intros Hrule.
  destruct (Hrule HDev 1 (with_dev {["loss-dev" := [Fin 1; Fin 2; Fin 3; Fin 4]]}))
    as (b & Hb & Hiff).
  - exists 0%nat, (Fin 1). by vm_compute.
  - vm_compute in Hb. injection Hb as <-.
    destruct Hiff as [_ Hstop]. enough (false = true) by done. apply Hstop.
    exists 0%nat. split; [|by vm_compute].
    exists (Fin 1). repeat split; try done.
    + intros j y Hj _. vm_compute in Hj. destruct j as [|[|[|[|j]]]]; simplify_eq/=; done.
    + intros; lia.
Qed.

(** What the ['loss-dev'] branch computes instead: [True] exactly when the
    first position of the smallest loss is strictly greater than
    [len(h) - p]. *)
Lemma early_stop_loss_dev_rule r p s :
  (∃ j y, history r "loss-dev" s !! j = Some y ∧ Float.isnan y = false ∧ y ≠ PInf) →
  ∃ b, (early_stop r "loss-dev" p s).1 = inr b
     ∧ (b = true ↔
        ∃ i, first_smallest (history r "loss-dev" s) i
           ∧ Z.of_nat (length (history r "loss-dev" s)) - p < Z.of_nat i).
Proof.
  intros Hv. rewrite early_stop_run. simpl.
  set (h := history r "loss-dev" s) in *.
  destruct (nanargmin_spec h Hv) as (i & Hi & Hbest).
  unfold early_stop_answer.
  rewrite all_isnan_has_value by (destruct Hv as (j & y & ? & ? & _); by exists j, y).
  simpl. rewrite Hi. simpl.
  eexists; split; [done|]. rewrite Z.ltb_lt. split.
  - intros Hlt. by exists i.
  - intros (i' & Hbest' & Hlt). by rewrite (first_smallest_unique h i i').
Qed.

(** C3.  Whatever the criterion and the patience, when every value in the
    history of the criterion is NaN (an empty history included),
    [early_stop] returns [False]; [np.nanargmin] and [np.nanargmax], which
    both raise [ValueError] on that history, are not called: the only
    numpy calls are [np.isnan] and [np.all]. *)
Theorem early_stop_all_nan r c p s :
  (∀ j y, history r c s !! j = Some y → Float.isnan y = true) →
  (early_stop r c p s).1 = inr false
  ∧ np_calls (early_stop r c p s).2 = np_calls s ++ [NpIsnan; NpAll]
  ∧ nanargmin (history r c s) = inl ValueError
  ∧ nanargmax (history r c s) = inl ValueError.
Proof.
  intros Hnan. apply all_isnan_true in Hnan.
  rewrite early_stop_run. simpl.
  unfold early_stop_answer, early_stop_calls, nanargmin, nanargmax. rewrite Hnan. simpl.
  repeat split; try done.
  unfold touch. destruct (get_hist r s !! c); [done|]. by destruct r.
Qed.

End EarlyStopRule.

Lemma early_stop_max_rule_witness :
  stops_iff_old first_largest HDev "f1_micro" 3
    (with_dev {["f1_micro" := [Fin 0.5; NaN; Fin 0.25]]}).
Proof.
  apply early_stop_max_rule.
  - discriminate.
  - exists 0%nat, (Fin 0.5). by vm_compute.
Defined.

Lemma early_stop_all_nan_witness :
  (early_stop HDev "f1_micro" 3 (with_dev {["f1_micro" := [NaN; NaN]]})).1 = inr false.
Proof.
  apply (early_stop_all_nan HDev "f1_micro" 3 (with_dev {["f1_micro" := [NaN; NaN]]})).
  intros j y. vm_compute. destruct j as [|[|j]]; intros [= <-]; reflexivity.
Defined.

(** ** The coarse prediction row *)

Section CoarseRow.
Import Numpy.

Lemma comprehension_inr {A B} (f : A → exn + B) l :
  (∀ a, a ∈ l → ∃ b, f a = inr b) →
  ∃ bs, comprehension f l = inr bs ∧ Forall2 (fun a b => f a = inr b) l bs.
Proof.
  induction l as [|a l IH]; intros Hf; simpl.
  - exists []. by split.
  - destruct (Hf a) as [b Hb]; [by left|].
    destruct IH as (bs & Hbs & Hall); [intros a' Ha'; apply Hf; by right|].
    exists (b :: bs). rewrite Hb, Hbs. split; [done | by constructor].
Qed.

Lemma lookup_round a j : round a !! j = Float.round <$> a !! j.
Proof. revert j. induction a as [|x a IH]; intros [|j]; simpl; done. Qed.

Lemma elem_of_nonzero_from a : ∀ k ind,
  ind ∈ nonzero_from k a ↔
  ∃ x, (k ≤ ind)%nat ∧ a !! (ind - k)%nat = Some x ∧ Float.nonzero x = true.
Proof.
  induction a as [|y a IH]; intros k ind; simpl.
  - split; [by intros ?%elem_of_nil | by intros (x & _ & ? & _)].
  - assert (Hrec : ind ∈ nonzero_from (S k) a ↔
                   ∃ x, (k < ind)%nat ∧ (y :: a) !! (ind - k)%nat = Some x
                        ∧ Float.nonzero x = true).
    { rewrite IH. split; intros (x & Hle & Hx & Hnz); exists x; (split; [lia|]).
      - replace (ind - k)%nat with (S (ind - S k)) by lia. done.
      - replace (ind - k)%nat with (S (ind - S k)) in Hx by lia. done. }
    destruct (Float.nonzero y) eqn:Hy.
    + rewrite elem_of_cons, Hrec. split.
      * intros [-> | (x & Hlt & Hx & Hnz)].
        -- exists y. rewrite Nat.sub_diag. done.
        -- exists x. split; [lia | done].
      * intros (x & Hle & Hx & Hnz).
        destruct (decide (ind = k)) as [-> | Hne]; [by left|].
        right. exists x. split; [lia | done].
    + rewrite Hrec. split.
      * intros (x & Hlt & Hx & Hnz). exists x. split; [lia | done].
      * intros (x & Hle & Hx & Hnz).
        destruct (decide (ind = k)) as [-> | Hne].
        -- rewrite Nat.sub_diag in Hx. simpl in Hx. congruence.
        -- exists x. split; [lia | done].
Qed.

(** The positions that [np.nonzero(np.round(row))[0]] lists. *)
Lemma elem_of_nonzero_round row ind :
  ind ∈ nonzero_from 0 (round row) ↔
  ∃ x, row !! ind = Some x ∧ Float.nonzero (Float.round x) = true.
Proof.
  rewrite elem_of_nonzero_from, Nat.sub_0_r. setoid_rewrite lookup_round. split.
  - intros (x & _ & Hx & Hnz). destruct (row !! ind) as [x0|]; simplify_eq/=. eauto.
  - intros (x & Hx & Hnz). exists (Float.round x). rewrite Hx. repeat split; [lia | done].
Qed.

Lemma norm_index_lt w idx j : norm_index w idx = Some j → (j < w)%nat.
Proof.
  unfold norm_index. repeat case_match; intros; simplify_eq; lia.
Qed.

Lemma assign_ones_spec idxs : ∀ row,
  (∀ idx, idx ∈ idxs → is_Some (norm_index (length row) idx)) →
  ∃ out, assign_ones idxs row = inr out ∧ length out = length row
    ∧ (∀ j, (∃ idx, idx ∈ idxs ∧ norm_index (length row) idx = Some j) →
            out !! j = Some (Fin 1))
    ∧ (∀ j, ¬ (∃ idx, idx ∈ idxs ∧ norm_index (length row) idx = Some j) →
            out !! j = row !! j).
Proof.
  induction idxs as [|idx idxs IH]; intros row Hok; simpl.
  - exists row. repeat split; try done.
    intros j (idx & Hin & _). by apply elem_of_nil in Hin.
  - destruct (Hok idx) as [j0 Hj0]; [by left|]. rewrite Hj0. simpl.
    pose proof (norm_index_lt _ _ _ Hj0) as Hlt.
    destruct (IH (<[j0 := Fin 1]> row)) as (out & Hout & Hlen & Hone & Hother).
    { intros idx' Hin. rewrite length_insert. apply Hok. by right. }
    rewrite length_insert in *.
    exists out. repeat split; try done.
    + intros j (idx' & Hin & Hj).
      destruct (decide (Exists (fun idx => norm_index (length row) idx = Some j) idxs))
        as [He|Hne]; rewrite Exists_exists in *.
      * by apply Hone.
      * rewrite (Hother j Hne).
        apply elem_of_cons in Hin as [-> | Hin]; [|destruct Hne; eauto].
        assert (j = j0) as -> by congruence. by apply list_lookup_insert_eq.
    + intros j Hne. rewrite Hother.
      * apply list_lookup_insert_ne. intros ->. apply Hne. exists idx. split; [by left | done].
      * intros (idx' & Hin & Hj). apply Hne. exists idx'. split; [by right | done].
Qed.

End CoarseRow.

Section CoarseRowClaims.
Import Numpy.

Lemma Forall2_elem_of_l {A B} (P : A → B → Prop) l k a :
  Forall2 P l k → a ∈ l → ∃ b, b ∈ k ∧ P a b.
Proof.
  induction 1 as [|a' b' l k Hab _ IH]; [by intros ?%elem_of_nil|].
  intros [-> | Hin]%elem_of_cons.
  - exists b'. split; [by left | done].
  - destruct (IH Hin) as (b & Hb & HP). exists b. split; [by right | done].
Qed.

Lemma Forall2_elem_of_r {A B} (P : A → B → Prop) l k b :
  Forall2 P l k → b ∈ k → ∃ a, a ∈ l ∧ P a b.
Proof.
  induction 1 as [|a' b' l k Hab _ IH]; [by intros ?%elem_of_nil|].
  intros [-> | Hin]%elem_of_cons.
  - exists a'. split; [by left | done].
  - destruct (IH Hin) as (a & Ha & HP). exists a. split; [by right | done].
Qed.

Lemma or_raise_inr {A} e (o : option A) a : or_raise e o = inr a ↔ o = Some a.
Proof. destruct o; simpl; split; congruence. Qed.

Lemma elem_of_map_before_dot s codes :
  s ∈ map before_dot codes ↔ ∃ code, code ∈ codes ∧ s = before_dot code.
Proof.
  rewrite list_elem_of_In, in_map_iff. split.
  - intros (code & <- & Hin). exists code. by rewrite list_elem_of_In.
  - intros (code & Hin & ->). exists code. by rewrite <- list_elem_of_In.
Qed.

(** The coarse row built from one row of the fine output: when the
    lookups succeed, it holds 1 at the positions designated by
    [c2ind_coarse[s]] for the prefixes [s] of the fine codes whose rounded
    score is nonzero, and 0 elsewhere. *)
Lemma coarse_row_spec d row :
  lookups_succeed d row →
  ∃ out, coarse_row d row = inr out ∧ marks_prefixes d row out.
Proof.
  intros Hok. unfold marks_prefixes, coarse_row, nonzero. simpl.
  set (inds := nonzero_from 0 (round row)).
  set (W := size (ind2c_coarse d)) in *.
  destruct (comprehension_inr (fun ind => or_raise KeyError (ind2c d !! Z.of_nat ind)) inds)
    as (codes & -> & Hcodes).
  { intros ind (x & Hx & Hnz)%elem_of_nonzero_round.
    destruct (Hok ind x Hx Hnz) as (code & v & -> & _). by exists code. }
  simpl.
  set (cs := (list_to_set (map before_dot codes) : gset string)).
  assert (Hcs : ∀ s, s ∈ elements cs ↔
            ∃ ind x code, row !! ind = Some x ∧ Float.nonzero (Float.round x) = true
                          ∧ ind2c d !! Z.of_nat ind = Some code ∧ s = before_dot code).
  { intros s. unfold cs. rewrite elem_of_elements, elem_of_list_to_set, elem_of_map_before_dot.
    split.
    - intros (code & Hin & ->).
      destruct (Forall2_elem_of_r _ _ _ _ Hcodes Hin) as (ind & Hind & Hlk).
      apply elem_of_nonzero_round in Hind as (x & Hx & Hnz).
      apply or_raise_inr in Hlk. by exists ind, x, code.
    - intros (ind & x & code & Hx & Hnz & Hcode & ->).
      assert (Hind : ind ∈ inds) by (apply elem_of_nonzero_round; eauto).
      destruct (Forall2_elem_of_l _ _ _ _ Hcodes Hind) as (code' & Hin & Hlk).
      apply or_raise_inr in Hlk. exists code'. split; [done | congruence]. }
  destruct (comprehension_inr (fun cc => or_raise KeyError (c2ind_coarse d !! cc)) (elements cs))
    as (idxs & -> & Hidxs).
  { intros s (ind & x & code & Hx & Hnz & Hcode & ->)%Hcs.
    destruct (Hok ind x Hx Hnz) as (code' & v & Hcode' & Hv & _). simplify_eq.
    rewrite Hv. by exists v. }
  simpl.
  assert (Hhit : ∀ j, (∃ idx, idx ∈ idxs ∧ norm_index W idx = Some j) ↔ coarse_hit d row j).
  { intros j. split.
    - intros (idx & Hin & Hj).
      destruct (Forall2_elem_of_r _ _ _ _ Hidxs Hin) as (s & Hs & Hlk).
      apply or_raise_inr in Hlk.
      apply Hcs in Hs as (ind & x & code & Hx & Hnz & Hcode & ->).
      by exists ind, x, code, idx.
    - intros (ind & x & code & v & Hx & Hnz & Hcode & Hv & Hj).
      assert (Hs : before_dot code ∈ elements cs) by (apply Hcs; by exists ind, x, code).
      destruct (Forall2_elem_of_l _ _ _ _ Hidxs Hs) as (idx & Hin & Hlk).
      apply or_raise_inr in Hlk. rewrite Hv in Hlk. injection Hlk as <-.
      by exists v. }
  destruct (assign_ones_spec idxs (zeros W)) as (out & -> & Hlen & Hone & Hother).
  { intros idx Hin. unfold zeros. rewrite length_replicate.
    destruct (Forall2_elem_of_r _ _ _ _ Hidxs Hin) as (s & Hs & Hlk).
    apply or_raise_inr in Hlk.
    apply Hcs in Hs as (ind & x & code & Hx & Hnz & Hcode & ->).
    destruct (Hok ind x Hx Hnz) as (code' & v & Hcode' & Hv & Hn). by simplify_eq. }
  unfold zeros in Hlen, Hone, Hother. rewrite length_replicate in Hlen, Hone, Hother.
  exists out. repeat split; try done.
  - intros Hj. apply Hone. by apply Hhit.
  - intros Hj. rewrite Hother by by rewrite Hhit. by apply lookup_replicate_2.
Qed.

(** C8.  The [continue] guard of the aggregation loop is false on every
    row: [np.nonzero] of a 1-D array is a tuple of length one.  All the
    same, a row in which no fine code has a nonzero rounded score yields
    the all-zero coarse row. *)
Theorem coarse_row_guard_never_holds d row :
  (∀ ind x, row !! ind = Some x → Float.nonzero (Float.round x) = false) →
  (length (nonzero (round row)) =? 0)%nat = false
  ∧ coarse_row d row = inr (zeros (size (ind2c_coarse d))).
Proof.
  intros Hzero. split; [done|].
  unfold coarse_row, nonzero. simpl.
  assert (nonzero_from 0 (round row) = []) as ->.
  { destruct (nonzero_from 0 (round row)) as [|ind l] eqn:E; [done|].
    assert (Hin : ind ∈ nonzero_from 0 (round row)) by (rewrite E; by left).
    apply elem_of_nonzero_round in Hin as (x & Hx & Hnz).
    rewrite (Hzero _ _ Hx) in Hnz. done. }
  simpl. by rewrite elements_empty.
Qed.

(** The guard is false on every row, whatever its scores. *)
Lemma coarse_row_guard_false row :
  (length (nonzero (round row)) =? 0)%nat = false.
Proof. done. Qed.

End CoarseRowClaims.

(** ** [train] and [test] *)

Section TrainTest.

Context {Model Batch : Type} `{External Model Batch}.

Lemma train_loop_losses o batches : ∀ (model : Model) acc,
  ∃ model', train_loop model (Some o) batches acc
            = inr (acc ++ batch_losses o model batches, model').
Proof.
  induction batches as [|tup rest IH]; intros model acc; simpl.
  - exists model. by rewrite app_nil_r.
  - destruct (forward true model tup) as [[out outc] loss] eqn:E. simpl.
    destruct (IH (opt_step o model tup) (acc ++ [loss])) as [model' ->].
    exists model'. by rewrite <- app_assoc.
Qed.

Lemma length_batch_losses o batches : ∀ model : Model,
  length (batch_losses o model batches) = length batches.
Proof. induction batches as [|tup rest IH]; intros model; simpl; [done | by rewrite IH]. Qed.

(** [train] with an optimizer returns one loss per batch of the loader. *)
Lemma train_returns o (model : Model) epoch ds :
  ∃ model', train model (Some o) epoch ds
            = inr (batch_losses o model (loader ds epoch), model').
Proof. unfold train. apply (train_loop_losses o (loader ds epoch) model []). Qed.

(** Without an optimizer (the model ['dummy'] gets none from [init]),
    [train] raises on the first batch. *)
Lemma train_without_optimizer_raises (model : Model) epoch ds :
  loader ds epoch ≠ [] → train model None epoch ds = inl AttributeError.
Proof. unfold train. by destruct (loader ds epoch). Qed.

(** What one turn of the loop of [test] adds to the collected lists. *)
Lemma test_batch_adds (model : Model) d acc tup acc' :
  test_batch model d acc tup = inr acc' →
  ∃ out_coarse,
    (if hier model then out_coarse = (forward false model tup).1.2
     else Forall2 (fun row orow => coarse_row d row = inr orow)
                  (forward false model tup).1.1 out_coarse)
    ∧ y_coarse acc' = y_coarse acc ++ [target_coarse tup]
    ∧ yhat_coarse acc' = yhat_coarse acc ++ [map Numpy.round out_coarse]
    ∧ yhat_coarse_raw acc' = yhat_coarse_raw acc ++ [out_coarse]
    ∧ y acc' = y acc ++ [target tup]
    ∧ yhat acc' = yhat acc ++ [map Numpy.round (forward false model tup).1.1]
    ∧ yhat_raw acc' = yhat_raw acc ++ [(forward false model tup).1.1]
    ∧ losses acc' = losses acc ++ [(forward false model tup).2].
Proof.
  unfold test_batch. destruct (forward false model tup) as [[out outc] loss]. simpl.
  destruct (hier model).
  - simpl. intros [= <-]. by exists outc.
  - destruct (comprehension (coarse_row d) out) as [e|oc] eqn:E; simpl; [done|].
    intros [= <-]. exists oc. repeat split; try done.
    clear -E. revert oc E. induction out as [|row out IH]; intros oc; simpl.
    + intros [= <-]. constructor.
    + destruct (coarse_row d row) as [e|orow] eqn:Er; simpl; [done|].
      destruct (comprehension (coarse_row d) out) as [e|oc'] eqn:E'; simpl; [done|].
      intros [= <-]. constructor; [done | by apply IH].
Qed.

Lemma test_batch_returns (model : Model) d acc tup :
  (hier model = false → ∀ row, row ∈ (forward false model tup).1.1 → lookups_succeed d row) →
  ∃ acc', test_batch model d acc tup = inr acc'.
Proof.
  intros Hok. unfold test_batch.
  destruct (forward false model tup) as [[out outc] loss]. simpl in *.
  destruct (hier model); simpl; [eauto|].
  destruct (comprehension_inr (coarse_row d) out) as (oc & -> & _); simpl; [|eauto].
  intros row Hrow. destruct (coarse_row_spec d row) as (orow & -> & _); eauto.
Qed.

Lemma coarse_rows_spec d rows outs :
  Forall2 (fun row orow => coarse_row d row = inr orow) rows outs →
  (∀ row, row ∈ rows → lookups_succeed d row) →
  Forall2 (marks_prefixes d) rows outs.
Proof.
  induction 1 as [|row orow rows outs Hrow _ IH]; intros Hok; constructor.
  - destruct (coarse_row_spec d row) as (out & Hout & Hmarks); [apply Hok; by left|].
    rewrite Hrow in Hout. by injection Hout as ->.
  - apply IH. intros row' Hin. apply Hok. by right.
Qed.

(** C4.  In [test] with a non-hierarchical model, on a batch whose rows
    raise nothing in the lookups, the coarse output appended for the
    batch has one row per row of the fine output, and the row derived
    from a fine row holds 1 exactly at the positions [c2ind_coarse[s]]
    for the prefixes [s] (the text before the first ['.']) of the fine
    codes whose rounded score in that row is nonzero, and 0 at every
    other position. *)
Theorem test_coarse_rows_mark_prefixes (model : Model) d acc tup :
  hier model = false →
  (∀ row, row ∈ (forward false model tup).1.1 → lookups_succeed d row) →
  ∃ acc' out_coarse,
    test_batch model d acc tup = inr acc'
    ∧ yhat_coarse_raw acc' = yhat_coarse_raw acc ++ [out_coarse]
    ∧ Forall2 (marks_prefixes d) (forward false model tup).1.1 out_coarse.
Proof.
  intros Hhier Hok.
  destruct (test_batch_returns model d acc tup) as [acc' Hrun]; [by intros _|].
  destruct (test_batch_adds _ _ _ _ _ Hrun) as (oc & Hoc & _ & _ & Hraw & _).
  rewrite Hhier in Hoc.
  exists acc', oc. split; [exact Hrun|]. split; [exact Hraw|].
  by apply coarse_rows_spec.
Qed.

(** The lists [test] has collected when its loop ends. *)
Lemma test_loop_collects (model : Model) d batches : ∀ acc acc',
  test_loop model d acc batches = inr acc' →
  ∃ outs_coarse,
    length outs_coarse = length batches
    ∧ (hier model = true → outs_coarse = map (fun tup => (forward false model tup).1.2) batches)
    ∧ (hier model = false →
       Forall2 (fun tup out_coarse =>
                  Forall2 (fun row orow => coarse_row d row = inr orow)
                          (forward false model tup).1.1 out_coarse)
               batches outs_coarse)
    ∧ y_coarse acc' = y_coarse acc ++ map target_coarse batches
    ∧ yhat_coarse acc' = yhat_coarse acc ++ map (map Numpy.round) outs_coarse
    ∧ yhat_coarse_raw acc' = yhat_coarse_raw acc ++ outs_coarse
    ∧ y acc' = y acc ++ map target batches
    ∧ yhat acc' = yhat acc ++ map (fun tup => map Numpy.round (forward false model tup).1.1) batches
    ∧ yhat_raw acc' = yhat_raw acc ++ map (fun tup => (forward false model tup).1.1) batches
    ∧ losses acc' = losses acc ++ map (fun tup => (forward false model tup).2) batches.
Proof.
  induction batches as [|tup rest IH]; intros acc acc'; simpl.
  - intros [= <-]. exists []. rewrite !app_nil_r. repeat split; try done; by constructor.
  - destruct (test_batch model d acc tup) as [e|acc1] eqn:E1; simpl; [done|].
    intros Hrest.
    destruct (test_batch_adds _ _ _ _ _ E1) as (oc & Hoc & E1a & E1b & E1c & E1d & E1e & E1f & E1g).
    destruct (IH _ _ Hrest) as (ocs & Hlen & Hhier & Hflat & E2a & E2b & E2c & E2d & E2e & E2f & E2g).
    exists (oc :: ocs). simpl.
    rewrite E2a, E2b, E2c, E2d, E2e, E2f, E2g, E1a, E1b, E1c, E1d, E1e, E1f, E1g.
    rewrite <- !app_assoc. simpl. repeat split; try done; [by rewrite Hlen| |].
    + intros Hh. rewrite Hh in Hoc. by rewrite Hoc, Hhier.
    + intros Hh. rewrite Hh in Hoc. constructor; [done | by apply Hflat].
Qed.

Lemma test_loop_returns (model : Model) d batches : ∀ acc,
  (hier model = false → ∀ tup row, tup ∈ batches → row ∈ (forward false model tup).1.1 →
                        lookups_succeed d row) →
  ∃ acc', test_loop model d acc batches = inr acc'.
Proof.
  induction batches as [|tup rest IH]; intros acc Hok; simpl; [eauto|].
  destruct (test_batch_returns model d acc tup) as [acc1 ->].
  { intros Hh row Hrow. apply (Hok Hh tup row); [by left | done]. }
  simpl. apply IH. intros Hh tup' row Hin. apply (Hok Hh). by right.
Qed.

End TrainTest.

(** ** The metrics dict of [test] *)

Section TestMetrics.

Context {Model Batch : Type} `{External Model Batch}.

Lemma concatenate_inr arrays : arrays ≠ [] → Numpy.concatenate arrays = inr (concat arrays).
Proof. by destruct arrays. Qed.



End TestMetrics.

(** ** Runs over the store *)

Section StoreRuns.

Lemma bind_run {A B} (m : M A) (f : A → M B) s :
  (m ≫= f) s = match m s with
               | (inr a, s') => f a s'
               | (inl e, s') => (inl e, s')
               end.
Proof. done. Qed.

Lemma get_set_hist r h s : get_hist r (set_hist r h s) = h.
Proof. by destruct r. Qed.

Lemma set_set_hist r h h' s : set_hist r h' (set_hist r h s) = set_hist r h' s.
Proof. by destruct r. Qed.

Lemma set_get_hist r s : set_hist r (get_hist r s) s = s.
Proof. by destruct r, s. Qed.

Lemma appended_lookup metrics h name :
  appended metrics h !! name =
  match metrics !! name with
  | Some v => Some (default [] (h !! name) ++ [v])
  | None => h !! name
  end.
Proof.
  unfold appended. revert name.
  apply (map_fold_weak_ind
           (fun acc (m : gmap string pyfloat) => ∀ name,
              acc !! name = match m !! name with
                            | Some v => Some (default [] (h !! name) ++ [v])
                            | None => h !! name
                            end)).
  - intros name. by rewrite lookup_empty.
  - intros i x m acc Hi IH name.
    destruct (decide (i = name)) as [<- | Hne].
    + rewrite !lookup_insert_eq. by rewrite IH, Hi.
    + rewrite !lookup_insert_ne by done. apply IH.
Qed.

Lemma append_all_run r metrics s :
  append_all r metrics s = (inr tt, set_hist r (appended metrics (get_hist r s)) s).
Proof.
  unfold append_all, appended. rewrite !map_fold_foldr.
  induction (map_to_list metrics) as [|[name val] l IH]; simpl.
  - by rewrite set_get_hist.
  - rewrite bind_run, IH. unfold dd_append.
    by rewrite get_set_hist, set_set_hist.
Qed.

End StoreRuns.

(** ** One epoch *)

Section Epochs.

Context {Model Batch : Type} `{External Model Batch}.

(** One turn of the epoch loop, when [train] and the evaluation on the
    dev set return: the events it adds, what it leaves in the history
    dicts, and whether it breaks out of the loop. *)
Lemma epoch_body_run a d opt (model model' : Model) e s losses metrics_dev :
  train model opt e DTrain = inr (losses, model') →
  test model' e DDev d = inr metrics_dev →
  let seen := appended metrics_dev (hist_dev s) in
  ∃ s', epoch_body a d opt model e s = (inr (model', stop_answer a seen), s')
      ∧ trace s' = trace s ++ epoch_events a e seen (stop_answer a seen)
      ∧ hist_train s' = appended {["loss" := np_mean losses]} (hist_train s)
      ∧ (∀ name, default [] (hist_dev s' !! name) = default [] (seen !! name))
      ∧ hist_test s' = hist_test s.
Proof.
  intros Htrain Htest seen.
  unfold epoch_body, stop_answer, epoch_events.
  rewrite bind_run. unfold emit at 1.
  rewrite bind_run. unfold lift at 1. rewrite Htrain.
  rewrite bind_run. unfold emit at 1.
  rewrite bind_run. unfold lift at 1. rewrite Htest.
  rewrite bind_run, append_all_run.
  rewrite bind_run. unfold set_train_epochs at 1.
  rewrite bind_run, append_all_run.
  rewrite bind_run. unfold emit at 1.
  destruct s as [ht hd hs he tr np]. simpl in *. fold seen. fold (dev_fold a).
  destruct (a_criterion a) as [c|].
  - rewrite bind_run. unfold snapshot at 1. simpl.
    rewrite bind_run, early_stop_run. unfold history. simpl.
    destruct (early_stop_answer_returns (default [] (seen !! c)) c (a_patience a)) as [b ->].
    rewrite bind_run. unfold emit, touch. simpl.
    destruct (seen !! c) as [l|] eqn:Ec; simpl;
      (eexists; split; [done|]); simpl; rewrite <- !app_assoc; repeat split; try done.
    intros name. destruct (decide (c = name)) as [<- | Hne].
    * by rewrite lookup_insert_eq, Ec.
    * by rewrite lookup_insert_ne.
  - eexists. split; [done|]. simpl. by rewrite <- !app_assoc.
Qed.

End Epochs.

(** ** The epoch loop *)

Section EpochLoop.

Context {Model Batch : Type} `{External Model Batch}.
Variables (a : args) (d : dicts) (opt : option optimizer).

Hypothesis train_returns_ : ∀ (model : Model) e, ∃ r, train model opt e DTrain = inr r.
Hypothesis evaluations_return_ : evaluations_return (Model := Model) d.

Lemma stop_answer_criterion seen : stop_answer a seen = true → is_Some (a_criterion a).
Proof. unfold stop_answer. destruct (a_criterion a); [eauto | done]. Qed.

(** The loop over [range(len)] shifted by [start]: it makes one turn per
    entry of [log]; only the last turn may have had [early_stop] answer
    [True], and the loop made fewer than [len] turns only if it did. *)
Lemma epoch_loop_run len : ∀ start (model : Model) epoch0 s,
  ∃ log model' s',
    epoch_loop a d opt model epoch0 (seq start len) s
    = (inr (model', last_epoch epoch0 start log), s')
    ∧ (length log ≤ len)%nat
    ∧ trace s' = trace s ++ epochs_events a start log
    ∧ hist_test s' = hist_test s
    ∧ (∀ i seen stop, log !! i = Some (seen, stop) → stop = stop_answer a seen)
    ∧ (∀ i seen stop, log !! i = Some (seen, stop) → stop = true → S i = length log)
    ∧ ((length log < len)%nat → ∃ seen, last log = Some (seen, true))
    ∧ (∀ i seen stop name, log !! i = Some (seen, stop) → always_returned (Model := Model) d name →
         length (default [] (seen !! name))
         = (length (default [] (hist_dev s !! name)) + S i)%nat)
    ∧ (∀ i seen stop name, log !! i = Some (seen, stop) → never_returned (Model := Model) d name →
         default [] (seen !! name) = default [] (hist_dev s !! name)).
Proof.
  induction len as [|len IH]; intros start model epoch0 s.
  - exists [], model, s. simpl. rewrite app_nil_r. repeat split; try done; lia.
  - simpl. rewrite bind_run.
    destruct (train_returns_ model start) as [[losses model1] Htrain].
    destruct (evaluations_return_ model1 start DDev) as [metrics Htest]; [done|].
    destruct (epoch_body_run a d opt model model1 start s losses metrics Htrain Htest)
      as (s1 & -> & Htr & _ & Hdev & Hts).
    set (seen := appended metrics (hist_dev s)) in *.
    assert (Hal : ∀ name, always_returned (Model := Model) d name →
              length (default [] (seen !! name))
              = (length (default [] (hist_dev s !! name)) + 1)%nat).
    { intros name Hname. destruct (Hname _ _ _ Htest) as [v Hv].
      unfold seen. rewrite appended_lookup, Hv. simpl. rewrite length_app. simpl. lia. }
    assert (Hnv : ∀ name, never_returned (Model := Model) d name →
              default [] (seen !! name) = default [] (hist_dev s !! name)).
    { intros name Hname. unfold seen. by rewrite appended_lookup, (Hname _ _ _ Htest). }
    destruct (stop_answer a seen) eqn:Hstop.
    + exists [(seen, true)], model1, s1. simpl. rewrite app_nil_r.
      replace (start + 1 - 1)%nat with start by lia.
      repeat split; try done; try lia.
      * intros [|i] seen' stop'; simpl; [|done]. by intros [= <- <-].
      * intros [|i] seen' stop'; simpl; [|done]. done.
      * intros _. by exists seen.
      * intros [|i] seen' stop' name; simpl; [|done]. intros [= <- <-]. apply Hal.
      * intros [|i] seen' stop' name; simpl; [|done]. intros [= <- <-]. apply Hnv.
    + destruct (IH (S start) model1 start s1)
        as (log & model' & s' & -> & Hlen & Htr' & Hts' & Hans & Hlast & Hshort & Hal' & Hnv').
      exists ((seen, false) :: log), model', s'. simpl.
      repeat split; try lia.
      * do 3 f_equal. unfold last_epoch. destruct log; simpl; lia.
      * rewrite Htr', Htr. unfold epoch_events. by rewrite <- !app_assoc.
      * by rewrite Hts', Hts.
      * intros [|i] seen' stop'; simpl; [by intros [= <- <-] | apply Hans].
      * intros [|i] seen' stop'; simpl; [by intros [= <- <-] |].
        intros Hi Hs. f_equal. by apply (Hlast i seen' stop').
      * intros Hlt. destruct Hshort as [seen' Hs]; [lia|]. exists seen'.
        destruct log; [done|]. done.
      * intros [|i] seen' stop' name; simpl.
        -- intros [= <- <-] Hname. by apply Hal.
        -- intros Hi Hname. rewrite (Hal' i seen' stop' name Hi Hname).
           rewrite Hdev, (Hal name Hname). lia.
      * intros [|i] seen' stop' name; simpl.
        -- intros [= <- <-] Hname. by apply Hnv.
        -- intros Hi Hname. rewrite (Hnv' i seen' stop' name Hi Hname).
           by rewrite Hdev, (Hnv name Hname).
Qed.

End EpochLoop.

(** ** [train_epochs] *)

Section TrainEpochs.

Context {Model Batch : Type} `{External Model Batch}.



(** A run that trains: the directory is made, the epoch loop runs, the
    test set is evaluated, everything is saved. *)
Lemma train_epochs_training_run a d opt (model : Model) s :
  a_test_model a = None →
  (∀ (model : Model) e, ∃ r, train model opt e DTrain = inr r) →
  evaluations_return (Model := Model) d →
  ∃ log metrics_test s',
    train_epochs a model opt d s
    = (inr ((length log - 1 + 1)%nat, appended metrics_test ∅), s')
    ∧ (length log ≤ a_n_epochs a)%nat
    ∧ trace s' = trace s ++ [EvMkdir] ++ epochs_events a 0 log
                 ++ [EvTest DTest "test" (length log - 1); EvSave true false]
    ∧ (∀ i seen stop, log !! i = Some (seen, stop) → stop = stop_answer a seen)
    ∧ (∀ i seen stop, log !! i = Some (seen, stop) → stop = true → S i = length log)
    ∧ ((length log < a_n_epochs a)%nat → ∃ seen, last log = Some (seen, true))
    ∧ (∀ i seen stop name, log !! i = Some (seen, stop) → always_returned (Model := Model) d name →
         length (default [] (seen !! name)) = S i)
    ∧ (∀ i seen stop name, log !! i = Some (seen, stop) → never_returned (Model := Model) d name →
         default [] (seen !! name) = []).
Proof.
  intros Hnone Htrain Heval. unfold train_epochs.
  rewrite Hnone, bool_decide_eq_false_2 by (intros Hn; by apply Hn). simpl negb. cbv iota.
  rewrite bind_run. unfold fresh_hists at 1.
  rewrite bind_run. unfold emit at 1. simpl.
  rewrite bind_run.
  destruct (epoch_loop_run a d opt Htrain Heval (a_n_epochs a) 0%nat model 0%nat
              (Store ∅ ∅ ∅ None (trace s ++ [EvMkdir]) (np_calls s)))
    as (log & model' & s1 & -> & Hlen & Htr & Hts & Hans & Hlast & Hshort & Hal & Hnv).
  simpl in Htr, Hts, Hal, Hnv.
  assert (last_epoch 0 0 log = (length log - 1)%nat) as ->.
  { unfold last_epoch. destruct log; simpl; lia. }
  rewrite bind_run. unfold emit at 1. simpl.
  destruct (Heval model' (length log - 1)%nat DTest) as [metrics_test Htest]; [done|].
  rewrite bind_run. unfold lift at 1. rewrite Htest.
  rewrite bind_run, append_all_run.
  rewrite bind_run. unfold emit at 1. simpl.
  rewrite bind_run. unfold snapshot at 1. simpl.
  exists log, metrics_test. eexists. rewrite Hts. split; [done|]. simpl.
  repeat split; try done.
  all: try (rewrite Htr; by rewrite <- !app_assoc).
  all: intros i seen stop name Hi Hname.
  all: first [ by rewrite (Hal i seen stop name Hi Hname), lookup_empty
             | by rewrite (Hnv i seen stop name Hi Hname), lookup_empty ].
Qed.

(** A run that only tests: no directory, no epoch, one evaluation. *)
Lemma train_epochs_test_only_run a d opt (model : Model) s path metrics :
  a_test_model a = Some path →
  test model 0 DTest d = inr metrics →
  train_epochs a model opt d s
  = (inr (1%nat, appended metrics ∅),
     Store ∅ ∅ (appended metrics ∅) None
           (trace s ++ [EvTest DTest "test" 0; EvSave true true]) (np_calls s)).
Proof.
  intros Hsome Htest. unfold train_epochs.
  rewrite Hsome, bool_decide_eq_true_2 by done. simpl negb. cbv iota.
  rewrite bind_run. unfold fresh_hists at 1.
  rewrite bind_run. simpl.
  rewrite bind_run. simpl.
  rewrite bind_run. unfold emit at 1. simpl.
  rewrite bind_run. unfold lift at 1. rewrite Htest.
  rewrite bind_run, append_all_run.
  rewrite bind_run. unfold emit at 1. simpl.
  rewrite bind_run. unfold snapshot at 1. simpl.
  by rewrite <- !app_assoc.
Qed.

End TrainEpochs.

(** ** The claims about [train_epochs] *)

Section TrainEpochsClaims.

Context {Model Batch : Type} `{External Model Batch}.


(** C10.  In such a run, the dev history that [early_stop] is handed
    after epoch [e] holds [e + 1] values for every metric that [test]
    returns every time; and when the criterion is a metric that [test]
    never returns, its history is the empty list at every epoch,
    [early_stop] answers [False] every time and all [n_epochs] epochs are
    run. *)
Theorem train_epochs_histories_grow a (model : Model) o d s :
  a_test_model a = None →
  evaluations_return (Model := Model) d →
  histories_grow a model (Some o) d s.
Proof.
  intros Hnone Heval.
  destruct (train_epochs_training_run a d (Some o) model s Hnone)
    as (log & metrics & s' & Hrun & Hlen & Htr & Hans & Hlast & Hshort & Hal & Hnv); [|done|].
  { intros m e. destruct (train_returns o m e DTrain) as [m' ->]. eauto. }
  exists log. eexists. exists s'.
  split; [exact Hrun|]. split; [exact Htr|]. split; [exact Hal|].
  intros c Hc Hnever.
  assert (Hfalse : ∀ i seen stop, log !! i = Some (seen, stop) → stop = false).
  { intros i seen stop Hi. rewrite (Hans i seen stop Hi). unfold stop_answer.
    rewrite Hc. by rewrite (Hnv i seen stop c Hi Hnever). }
  split.
  - destruct (decide (length log < a_n_epochs a)%nat) as [Hlt|]; [|lia].
    destruct (Hshort Hlt) as [seen Hs]. rewrite last_lookup in Hs.
    by specialize (Hfalse _ _ _ Hs).
  - intros i seen stop Hi. split; [by apply (Hnv i seen stop) | by apply (Hfalse i seen)].
Qed.

(** C7.  In every epoch, [train] returns the list of the per-batch losses,
    one per batch of the training loader, and the value appended to
    [metrics_hist_train['loss']] for the epoch is [np.mean] of that list. *)
Theorem epoch_loss_is_mean_of_batch_losses a d o (model : Model) e s :
  evaluations_return (Model := Model) d →
  epoch_records_mean_loss a d o model e s.
Proof.
  intros Heval.
  destruct (train_returns o model e DTrain) as [model' Htrain].
  destruct (Heval model' e DDev) as [metrics Htest]; [done|].
  destruct (epoch_body_run a d (Some o) model model' e s _ metrics Htrain Htest)
    as (s' & Hrun & _ & Hht & _).
  exists (batch_losses o model (loader DTrain e)), model',
         (stop_answer a (appended metrics (hist_dev s))), s'.
  split; [exact Htrain|]. split; [reflexivity|].
  split; [apply length_batch_losses|]. split; [exact Hrun|].
  unfold history. simpl. rewrite Hht, appended_lookup. by rewrite lookup_singleton_eq.
Qed.

(** C9, as amended.  When [args.test_model] is a non-empty string, [init]
    builds no optimizer; and whenever [args.test_model] is not [None] (and
    the evaluation on the test set returns), [train_epochs] makes no
    directory, runs no epoch, evaluates the test set once and returns 1 as
    the number of epochs trained. *)
Theorem test_model_run_only_tests a (model : Model) opt d s path metrics :
  a_test_model a = Some path →
  test model 0 DTest d = inr metrics →
  (path ≠ EmptyString → (init a).1.2 = None)
  ∧ only_tests a model opt d s.
Proof.
  intros Hsome Htest. split.
  - intros Hpath. unfold init. simpl. rewrite Hsome. simpl.
    apply String.eqb_neq in Hpath. by rewrite Hpath.
  - eexists. eexists.
    rewrite (train_epochs_test_only_run a d opt model s path metrics Hsome Htest).
    split; [reflexivity|]. simpl. split; [reflexivity|]. by rewrite drop_app_length.
Qed.

End TrainEpochsClaims.

(** C9, where the claim as stated breaks: with [test_model] the empty
    string, [not args.test_model] holds and [init] builds an Adam
    optimizer, although [args.test_model is not None]. *)
Lemma init_builds_optimizer_for_empty_test_model : ¬ no_optimizer_when_test_model_set.
Proof.
  intros Hclaim.
  specialize (Hclaim nat nat toy_external (toy_args 1 (Some EmptyString) None)).
  simpl in Hclaim. by specialize (Hclaim ltac:(done)).
Qed.

(** ** The theorems at work on the small setting *)

Lemma toy_lookups_succeed : lookups_succeed toy_dicts [Fin 0.75; Fin 0.25; Fin 0.9].
Proof.
  intros ind x Hx Hnz.
  destruct ind as [|[|[|ind]]]; simpl in Hx; simplify_eq.
  - exists "401.9"%string, 0.
    split; [by vm_compute | split; [by vm_compute | eexists; by vm_compute]].
  - exists "250.00"%string, 1.
    split; [by vm_compute | split; [by vm_compute | eexists; by vm_compute]].
Qed.

Lemma toy_evaluations_return : evaluations_return (H := toy_external) toy_dicts.
Proof. intros model epoch ds _. eexists. vm_compute. reflexivity. Qed.

Lemma test_coarse_rows_mark_prefixes_witness :
  ∃ acc' out_coarse,
    test_batch (H := toy_external) 0%nat toy_dicts (Collected [] [] [] [] [] [] []) 0%nat
    = inr acc'
    ∧ yhat_coarse_raw acc' = [out_coarse]
    ∧ Forall2 (marks_prefixes toy_dicts) [[Fin 0.75; Fin 0.25; Fin 0.9]] out_coarse.
Proof.
  apply (test_coarse_rows_mark_prefixes (H := toy_external) 0%nat toy_dicts
           (Collected [] [] [] [] [] [] []) 0%nat).
  - reflexivity.
  - intros row Hrow. simpl in Hrow.
    apply list_elem_of_singleton in Hrow as ->. exact toy_lookups_succeed.
Defined.

Lemma coarse_row_guard_never_holds_witness :
  (length (Numpy.nonzero (Numpy.round [Fin 0.25; Fin 0.5; Fin 0.1])) =? 0)%nat = false
  ∧ coarse_row toy_dicts [Fin 0.25; Fin 0.5; Fin 0.1]
    = inr (Numpy.zeros (size (ind2c_coarse toy_dicts))).
Proof.
  apply (coarse_row_guard_never_holds toy_dicts [Fin 0.25; Fin 0.5; Fin 0.1]).
  intros ind x Hx. destruct ind as [|[|[|ind]]]; simpl in Hx; simplify_eq; by vm_compute.
Defined.




Lemma train_epochs_histories_grow_witness :
  histories_grow (H := toy_external) (toy_args 3 None (Some "loss-dev"))
    0%nat (Some (Adam (Fin 0) (Fin 0.001))) toy_dicts empty_store.
Proof.
  apply train_epochs_histories_grow.
  - reflexivity.
  - exact toy_evaluations_return.
Defined.

Lemma epoch_loss_is_mean_of_batch_losses_witness :
  epoch_records_mean_loss (H := toy_external) (toy_args 3 None (Some "f1_micro_fine"))
    toy_dicts (Adam (Fin 0) (Fin 0.001)) 0%nat 0%nat empty_store.
Proof.
  apply epoch_loss_is_mean_of_batch_losses. exact toy_evaluations_return.
Defined.

Lemma test_model_run_only_tests_witness :
  only_tests (H := toy_external) (toy_args 3 (Some "model.pth") (Some "f1_micro_fine"))
    0%nat None toy_dicts empty_store.
Proof.
  destruct (toy_evaluations_return 0%nat 0%nat DTest) as [metrics Hmetrics]; [done|].
  apply (test_model_run_only_tests (H := toy_external)
           (toy_args 3 (Some "model.pth") (Some "f1_micro_fine"))
           0%nat None toy_dicts empty_store "model.pth" metrics).
  - reflexivity.
  - exact Hmetrics.
Defined.

(** * Part IV: further properties of the code *)

(** ** [early_stop] as a function of history and patience *)

Section EarlyStopFurther.
Import Numpy.




(** X3.  For a criterion other than ['loss-dev'], a larger patience never
    stops training where a smaller one lets it go on: if [early_stop]
    answers [True] with patience [p'], it answers [True] with every
    patience [p <= p'] on the same history. *)
Theorem early_stop_patience_monotone r c p p' s :
  c ≠ "loss-dev" → p ≤ p' →
  (early_stop r c p' s).1 = inr true →
  (early_stop r c p s).1 = inr true.
Proof.
  intros Hc Hle. rewrite !early_stop_run. simpl. unfold early_stop_answer.
  apply String.eqb_neq in Hc. rewrite Hc.
  destruct (all_isnan (history r c s)); simpl; [done|].
  destruct (nanargmax (history r c s)) as [e|i]; simpl; [done|].
  intros [= Hlt]. f_equal. apply Z.ltb_lt in Hlt. apply Z.ltb_lt. lia.
Qed.

(** X4.  For a criterion other than ['loss-dev'], training is never
    stopped while the history has at most [patience] values. *)
Theorem early_stop_grace_period r c p s :
  c ≠ "loss-dev" →
  Z.of_nat (length (history r c s)) ≤ p →
  (early_stop r c p s).1 = inr false.
Proof.
  intros Hc Hle. rewrite early_stop_run. simpl. unfold early_stop_answer.
  apply String.eqb_neq in Hc. rewrite Hc.
  destruct (all_isnan (history r c s)) eqn:Hall; simpl; [done|].
  destruct (nanargmax_returns _ (all_isnan_false _ Hall)) as [i ->]. simpl.
  f_equal. apply Z.ltb_ge. lia.
Qed.

(** X5.  For the criterion ['loss-dev'] the comparison goes the other way:
    as soon as its history holds a non-NaN value and has fewer values than
    [patience], [early_stop] answers [True]. *)
Theorem early_stop_loss_dev_stops_at_once r p s :
  has_value (history r "loss-dev" s) →
  Z.of_nat (length (history r "loss-dev" s)) < p →
  (early_stop r "loss-dev" p s).1 = inr true.
Proof.
  intros Hv Hlt. rewrite early_stop_run. simpl. unfold early_stop_answer.
  rewrite (all_isnan_has_value _ Hv). simpl.
  destruct (nanargmin_returns _ Hv) as [i ->]. simpl.
  f_equal. apply Z.ltb_lt. lia.
Qed.

(** X6.  For a criterion other than ['loss-dev'] and a patience of at
    least 1, training is not stopped right after an improvement: when the
    last value of the history is a new best (larger than every earlier
    non-NaN value, and above [-inf]), [early_stop] answers [False]. *)
Theorem early_stop_not_after_improvement r c p s :
  c ≠ "loss-dev" → 1 ≤ p →
  first_largest (history r c s) (length (history r c s) - 1) →
  (∃ j y, history r c s !! j = Some y ∧ Float.isnan y = false ∧ y ≠ NInf) →
  (early_stop r c p s).1 = inr false.
Proof.
  intros Hc Hp Hlast Hv. rewrite early_stop_run. simpl. unfold early_stop_answer.
  apply String.eqb_neq in Hc. rewrite Hc.
  rewrite all_isnan_has_value by (destruct Hv as (j & y & ? & ? & _); by exists j, y).
  destruct (nanargmax_spec _ Hv) as (i & -> & Hbest). simpl.
  rewrite (first_largest_unique _ _ _ Hbest Hlast).
  f_equal. apply Z.ltb_ge. lia.
Qed.

End EarlyStopFurther.

Lemma early_stop_patience_monotone_witness :
  (early_stop HDev "f1_micro" 1
     (with_dev {["f1_micro" := [Fin 0.5; Fin 0.25; Fin 0.25; Fin 0.125]]})).1 = inr true.
Proof.
  apply (early_stop_patience_monotone HDev "f1_micro" 1 3).
  - discriminate.
  - lia.
  - by vm_compute.
Defined.

Lemma early_stop_grace_period_witness :
  (early_stop HDev "f1_micro" 3 (with_dev {["f1_micro" := [Fin 0.5; Fin 0.25]]})).1
  = inr false.
Proof.
  apply early_stop_grace_period.
  - discriminate.
  - by vm_compute.
Defined.

Lemma early_stop_loss_dev_stops_at_once_witness :
  (early_stop HDev "loss-dev" 3 (with_dev {["loss-dev" := [Fin 0.5]]})).1 = inr true.
Proof.
  apply early_stop_loss_dev_stops_at_once.
  - exists 0%nat, (Fin 0.5). by vm_compute.
  - by vm_compute.
Defined.

Lemma early_stop_not_after_improvement_witness :
  (early_stop HDev "f1_micro" 1
     (with_dev {["f1_micro" := [Fin 0.25; NaN; Fin 0.5]]})).1 = inr false.
Proof.
  apply early_stop_not_after_improvement.
  - discriminate.
  - lia.
  - assert (history HDev "f1_micro" (with_dev {["f1_micro" := [Fin 0.25; NaN; Fin 0.5]]})
            = [Fin 0.25; NaN; Fin 0.5]) as -> by (by vm_compute).
    exists (Fin 0.5). simpl. repeat split.
    + intros j y Hj Hy. destruct j as [|[|[|j]]]; simplify_eq/=; done.
    + intros j y Hlt Hj Hy. destruct j as [|[|j]]; simplify_eq/=; try done. lia.
  - exists 0%nat, (Fin 0.25). by vm_compute.
Defined.

(** ** The coarse code of a fine code, and the aggregation of one row *)

Section CoarseFurther.
Import Numpy.

(** X7.  [str(code).split('.')[0]] is the longest prefix of the code that
    holds no ['.']: it holds none, the code is that prefix followed by
    nothing or by a rest that starts with ['.'], and a code without ['.']
    is its own coarse code. *)
Theorem before_dot_is_dot_free_prefix code :
  has_dot (before_dot code) = false
  ∧ (∃ rest, code = String.append (before_dot code) rest
           ∧ (rest = EmptyString ∨ ∃ rest', rest = String "."%char rest'))
  ∧ (has_dot code = false → before_dot code = code).
Proof.
  induction code as [|c code (IHdot & (rest & IHrest & IHhead) & IHid)]; simpl.
  - repeat split; try done. exists EmptyString. split; [done | by left].
  - destruct (Ascii.eqb c ".") eqn:Hc; simpl.
    + apply Ascii.eqb_eq in Hc as ->. repeat split; try done.
      exists (String "."%char code). split; [done | right; by exists code].
    + rewrite Hc. simpl. repeat split; try done.
      * exists rest. split; [|done].
        change (String c code = String c (String.append (before_dot code) rest)).
        by f_equal.
      * intros Hnd. by rewrite IHid.
Qed.

Lemma comprehension_inv {A B} (f : A → exn + B) l bs :
  comprehension f l = inr bs → Forall2 (fun a b => f a = inr b) l bs.
Proof.
  revert bs. induction l as [|a l IH]; intros bs; simpl.
  - intros [= <-]. constructor.
  - destruct (f a) as [e|b] eqn:Ea; simpl; [done|].
    destruct (comprehension f l) as [e|bs'] eqn:El; simpl; [done|].
    intros [= <-]. constructor; [done | by apply IH].
Qed.

Lemma comprehension_exn {A B} (f : A → exn + B) l e e0 :
  (∀ a e', f a = inl e' → e' = e0) → comprehension f l = inl e → e = e0.
Proof.
  intros Hf. induction l as [|a l IH]; simpl; [done|].
  destruct (f a) as [e'|b] eqn:Ea; simpl.
  - intros [= <-]. by apply (Hf a).
  - destruct (comprehension f l) as [e'|bs'] eqn:El; simpl; [|done].
    intros [= <-]. by apply IH.
Qed.

Lemma assign_ones_inv idxs : ∀ row out,
  assign_ones idxs row = inr out →
  ∀ idx, idx ∈ idxs → is_Some (norm_index (length row) idx).
Proof.
  induction idxs as [|idx0 idxs IH]; intros row out; simpl.
  - intros _ idx Hin. by apply elem_of_nil in Hin.
  - destruct (norm_index (length row) idx0) as [j|] eqn:Ej; simpl; [|done].
    intros Hout idx [-> | Hin]%elem_of_cons; [by rewrite Ej|].
    specialize (IH _ _ Hout idx Hin). by rewrite length_insert in IH.
Qed.

Lemma assign_ones_exn idxs : ∀ row e, assign_ones idxs row = inl e → e = IndexError.
Proof.
  induction idxs as [|idx0 idxs IH]; intros row e; simpl; [done|].
  destruct (norm_index (length row) idx0) as [j|]; simpl; [apply IH | by intros [= <-]].
Qed.

Lemma assign_ones_binary idxs : ∀ row out,
  binary_row row → assign_ones idxs row = inr out → binary_row out.
Proof.
  induction idxs as [|idx0 idxs IH]; intros row out Hrow; simpl.
  - by intros [= <-].
  - destruct (norm_index (length row) idx0) as [j|]; simpl; [|done].
    apply IH. intros k v Hk.
    destruct (decide (j = k)) as [<- | Hne].
    + destruct (decide (j < length row)%nat) as [Hlt|Hge].
      * rewrite list_lookup_insert_eq in Hk by done. right. congruence.
      * rewrite list_insert_ge in Hk by lia. by apply (Hrow j).
    + rewrite list_lookup_insert_ne in Hk by done. by apply (Hrow k).
Qed.

Lemma binary_row_zeros n : binary_row (zeros n).
Proof. intros j v [-> _]%lookup_replicate. by left. Qed.

Lemma round_binary_row out : binary_row out → round out = out.
Proof.
  unfold round. induction out as [|v out IH]; intros Hb; simpl; [done|].
  rewrite IH by (intros j w Hj; apply (Hb (S j) w Hj)).
  by destruct (Hb 0%nat v eq_refl) as [-> | ->].
Qed.

Lemma coarse_row_inr_lookups d row out :
  coarse_row d row = inr out → lookups_succeed d row.
Proof.
  intros Hout ind x Hx Hnz. revert Hout.
  unfold coarse_row, nonzero. simpl.
  destruct (comprehension _ (nonzero_from 0 (round row))) as [e|codes] eqn:Ecodes;
    simpl; [done|].
  destruct (comprehension _ (elements _)) as [e|idxs] eqn:Eidxs; simpl; [done|].
  intros Hassign.
  apply comprehension_inv in Ecodes, Eidxs.
  assert (Hind : ind ∈ nonzero_from 0 (round row)) by (apply elem_of_nonzero_round; eauto).
  destruct (Forall2_elem_of_l _ _ _ _ Ecodes Hind) as (code & Hcode & Hlk).
  apply or_raise_inr in Hlk.
  assert (Hs : before_dot code ∈ elements (list_to_set (map before_dot codes) : gset string)).
  { rewrite elem_of_elements, elem_of_list_to_set, elem_of_map_before_dot. eauto. }
  destruct (Forall2_elem_of_l _ _ _ _ Eidxs Hs) as (v & Hv & Hlkv).
  apply or_raise_inr in Hlkv.
  exists code, v. repeat split; try done.
  pose proof (assign_ones_inv _ _ _ Hassign v Hv) as Hn.
  unfold zeros in Hn. by rewrite length_replicate in Hn.
Qed.

(** X8.  The aggregation of one row returns a coarse row exactly when the
    three lookups succeed for every fine code with a nonzero rounded
    score ([ind2c[ind]], [c2ind_coarse[prefix]], and the position in the
    row); when one of them fails the row is not skipped: the exception
    ([KeyError] or [IndexError]) leaves [test]. *)
Theorem coarse_row_returns_iff_lookups_succeed d row :
  ((∃ out, coarse_row d row = inr out) ↔ lookups_succeed d row)
  ∧ (∀ e, coarse_row d row = inl e → e = KeyError ∨ e = IndexError).
Proof.
  split; [split|].
  - intros [out Hout]. by apply (coarse_row_inr_lookups d row out).
  - intros Hok. destruct (coarse_row_spec d row Hok) as (out & Hout & _). eauto.
  - intros e. unfold coarse_row, nonzero. simpl.
    destruct (comprehension _ (nonzero_from 0 (round row))) as [e1|codes] eqn:Ecodes; simpl.
    { intros [= <-]. left. apply (comprehension_exn _ _ _ KeyError) in Ecodes; [done|].
      intros a e'. destruct (ind2c d !! Z.of_nat a); simpl; [done | by intros [= <-]]. }
    destruct (comprehension _ (elements _)) as [e2|idxs] eqn:Eidxs; simpl.
    { intros [= <-]. left. apply (comprehension_exn _ _ _ KeyError) in Eidxs; [done|].
      intros a e'. destruct (c2ind_coarse d !! a); simpl; [done | by intros [= <-]]. }
    intros He. right. by apply assign_ones_exn in He.
Qed.

(** Every coarse row the aggregation builds is binary, so rounding leaves
    it as it is. *)
Lemma coarse_row_binary d row out :
  coarse_row d row = inr out → binary_row out ∧ round out = out.
Proof.
  intros Hout.
  assert (Hb : binary_row out).
  { revert Hout. unfold coarse_row, nonzero. simpl.
    destruct (comprehension _ (nonzero_from 0 (round row))) as [e|codes]; simpl; [done|].
    destruct (comprehension _ (elements _)) as [e|idxs]; simpl; [done|].
    apply assign_ones_binary, binary_row_zeros. }
  split; [done | by apply round_binary_row].
Qed.

End CoarseFurther.

(** ** [train] and [test], batch after batch *)

Section TrainTestFurther.

Context {Model Batch : Type} `{External Model Batch}.

(** X9.  For a non-hierarchical model the coarse predictions that [test]
    collects for a batch are binary: the rounded coarse output it appends
    to [yhat_coarse] is the very array it appends to [yhat_coarse_raw],
    and each of its entries is 0 or 1. *)
Theorem test_batch_coarse_predictions_are_binary (model : Model) d acc tup acc' :
  hier model = false →
  test_batch model d acc tup = inr acc' →
  ∃ out_coarse,
    yhat_coarse acc' = yhat_coarse acc ++ [out_coarse]
    ∧ yhat_coarse_raw acc' = yhat_coarse_raw acc ++ [out_coarse]
    ∧ Forall binary_row out_coarse.
Proof.
  intros Hhier Hrun.
  destruct (test_batch_adds _ _ _ _ _ Hrun) as (oc & Hoc & _ & Hyh & Hraw & _).
  rewrite Hhier in Hoc.
  assert (Hbin : Forall (fun orow => binary_row orow ∧ Numpy.round orow = orow) oc).
  { clear -Hoc. induction Hoc as [|row orow rows oc Hrow _ IH]; constructor; [|done].
    by apply (coarse_row_binary d row). }
  exists oc. split; [|split; [done|]].
  - rewrite Hyh. do 2 f_equal.
    clear -Hbin. induction Hbin as [|orow oc [_ Hr] _ IH]; simpl; [done | by rewrite Hr, IH].
  - eapply Forall_impl; [exact Hbin | by intros orow [? _]].
Qed.

(** X10.  [train] with an optimizer makes exactly one optimizer step per
    batch, in the order of the loader: it returns the losses computed
    along the way, one per batch, and leaves the network in the state the
    last step produced. *)
Theorem train_steps_once_per_batch o (model : Model) epoch ds :
  train model (Some o) epoch ds
  = inr (batch_losses o model (loader ds epoch),
         foldl (fun m tup => opt_step o m tup) model (loader ds epoch))
  ∧ length (batch_losses o model (loader ds epoch)) = length (loader ds epoch).
Proof.
  split; [|apply length_batch_losses].
  unfold train.
  enough (Hgen : ∀ batches (m : Model) acc,
            train_loop m (Some o) batches acc
            = inr (acc ++ batch_losses o m batches,
                   foldl (fun m tup => opt_step o m tup) m batches))
    by apply (Hgen (loader ds epoch) model []).
  induction batches as [|tup rest IH]; intros m acc; simpl.
  - by rewrite app_nil_r.
  - destruct (forward true m tup) as [[out outc] loss]. simpl.
    rewrite IH. by rewrite <- app_assoc.
Qed.

Lemma test_loop_inv (model : Model) d batches acc acc' :
  test_loop model d acc batches = inr acc' →
  hier model = false →
  ∀ tup row, tup ∈ batches → row ∈ (forward false model tup).1.1 → lookups_succeed d row.
Proof.
  intros Hrun Hhier tup row Htup Hrow.
  destruct (test_loop_collects _ _ _ _ _ Hrun) as (ocs & _ & _ & Hrows & _).
  destruct (Forall2_elem_of_l _ _ _ _ (Hrows Hhier) Htup) as (oc & _ & Hoc).
  destruct (Forall2_elem_of_l _ _ _ _ Hoc Hrow) as (orow & _ & Horow).
  by apply (coarse_row_inr_lookups d row orow).
Qed.

Lemma test_metrics_returns d acc :
  y_coarse acc ≠ [] → yhat_coarse acc ≠ [] → yhat_coarse_raw acc ≠ [] →
  y acc ≠ [] → yhat acc ≠ [] → yhat_raw acc ≠ [] →
  ∃ metrics, test_metrics d acc = inr metrics.
Proof.
  intros. unfold test_metrics. rewrite !concatenate_inr by done. simpl. eauto.
Qed.

(** X11.  [test] returns a dict of metrics exactly when the dataset yields
    at least one batch and, for a non-hierarchical model, the lookups of
    the coarse aggregation succeed on every row of every batch.  On a
    dataset without batches it raises [ValueError] ([np.concatenate] of an
    empty list) whatever the model. *)
Theorem test_returns_iff (model : Model) epoch ds d :
  ((∃ metrics, test model epoch ds d = inr metrics) ↔
   loader ds epoch ≠ []
   ∧ (hier model = false →
      ∀ tup row, tup ∈ loader ds epoch → row ∈ (forward false model tup).1.1 →
                 lookups_succeed d row))
  ∧ (loader ds epoch = [] → test model epoch ds d = inl ValueError).
Proof.
  split; [split|].
  - intros [metrics Hrun]. unfold test in Hrun.
    destruct (test_loop model d _ (loader ds epoch)) as [e|acc] eqn:Hacc; simpl in Hrun; [done|].
    split.
    + intros Hnil. rewrite Hnil in Hacc. simpl in Hacc. injection Hacc as <-. done.
    + intros Hhier. by apply (test_loop_inv model d _ _ _ Hacc).
  - intros [Hne Hok]. unfold test.
    destruct (test_loop_returns model d (loader ds epoch) (Collected [] [] [] [] [] [] []) Hok)
      as [acc Hacc].
    rewrite Hacc. simpl.
    destruct (test_loop_collects _ _ _ _ _ Hacc)
      as (ocs & Hlen & _ & _ & Ea & Eb & Ec & Ed & Ee & Ef & _).
    simpl in *.
    assert (Hocs : ocs ≠ []).
    { intros ->. destruct (loader ds epoch); [done | discriminate]. }
    apply test_metrics_returns; rewrite ?Ea, ?Eb, ?Ec, ?Ed, ?Ee, ?Ef;
      try (by destruct (loader ds epoch)); by destruct ocs.
  - intros Hnil. unfold test. by rewrite Hnil.
Qed.

End TrainTestFurther.

Lemma test_batch_coarse_predictions_are_binary_witness :
  ∃ acc' out_coarse,
    test_batch (H := toy_external) 0%nat toy_dicts (Collected [] [] [] [] [] [] []) 0%nat
    = inr acc'
    ∧ yhat_coarse acc' = [out_coarse]
    ∧ yhat_coarse_raw acc' = [out_coarse].
Proof.
  destruct (test_batch_returns (H := toy_external) 0%nat toy_dicts
              (Collected [] [] [] [] [] [] []) 0%nat) as [acc' Hrun].
  { intros _ row Hrow. simpl in Hrow.
    apply list_elem_of_singleton in Hrow as ->. exact toy_lookups_succeed. }
  destruct (test_batch_coarse_predictions_are_binary (H := toy_external) 0%nat toy_dicts
              (Collected [] [] [] [] [] [] []) 0%nat acc' eq_refl Hrun)
    as (oc & Hyh & Hraw & _).
  exists acc', oc. split; [exact Hrun|]. split; [exact Hyh | exact Hraw].
Defined.

(** ** What a run of [train_epochs] leaves behind *)

Section EpochsFurther.

Context {Model Batch : Type} `{External Model Batch}.

Lemma epoch_body_side a d opt (model model' : Model) e s losses metrics_dev :
  train model opt e DTrain = inr (losses, model') →
  test model' e DDev d = inr metrics_dev →
  let seen := appended metrics_dev (hist_dev s) in
  ∃ s', epoch_body a d opt model e s = (inr (model', stop_answer a seen), s')
      ∧ trace s' = trace s ++ epoch_events a e seen (stop_answer a seen)
      ∧ hist_train s' = appended {["loss" := np_mean losses]} (hist_train s)
      ∧ hist_train_epochs s' = Some (Z.of_nat e + 1)
      ∧ (a_criterion a = None → np_calls s' = np_calls s).
Proof.
  intros Htrain Htest seen.
  unfold epoch_body, stop_answer, epoch_events.
  rewrite bind_run. unfold emit at 1.
  rewrite bind_run. unfold lift at 1. rewrite Htrain.
  rewrite bind_run. unfold emit at 1.
  rewrite bind_run. unfold lift at 1. rewrite Htest.
  rewrite bind_run, append_all_run.
  rewrite bind_run. unfold set_train_epochs at 1.
  rewrite bind_run, append_all_run.
  rewrite bind_run. unfold emit at 1.
  destruct s as [ht hd hs he tr np]. simpl in *. fold seen. fold (dev_fold a).
  destruct (a_criterion a) as [c|].
  - rewrite bind_run. unfold snapshot at 1. simpl.
    rewrite bind_run, early_stop_run. unfold history. simpl.
    destruct (early_stop_answer_returns (default [] (seen !! c)) c (a_patience a)) as [b ->].
    rewrite bind_run. unfold emit, touch. simpl.
    destruct (seen !! c) as [l|] eqn:Ec; simpl;
      (eexists; split; [done|]); simpl; rewrite <- !app_assoc; repeat split; done.
  - eexists. split; [done|]. simpl. by rewrite <- !app_assoc.
Qed.

Lemma count_train_epoch_events a e seen stop : count_train (epoch_events a e seen stop) = 1%nat.
Proof. unfold count_train, epoch_events. simpl. by destruct (a_criterion a). Qed.

Lemma count_train_app evs evs' : count_train (evs ++ evs') = (count_train evs + count_train evs')%nat.
Proof. unfold count_train. by rewrite List.filter_app, length_app. Qed.

Lemma count_test_eval_app evs evs' :
  count_test_eval (evs ++ evs') = (count_test_eval evs + count_test_eval evs')%nat.
Proof. unfold count_test_eval. by rewrite List.filter_app, length_app. Qed.

Lemma history_train_loss_appended v s s' :
  hist_train s' = appended {["loss" := v]} (hist_train s) →
  history HTrain "loss" s' = history HTrain "loss" s ++ [v].
Proof.
  intros Hs. unfold history. simpl. by rewrite Hs, appended_lookup, lookup_singleton_eq.
Qed.

Section Loop.

Variables (a : args) (d : dicts) (opt : option optimizer).

Hypothesis train_returns_ : ∀ (model : Model) e, ∃ r, train model opt e DTrain = inr r.
Hypothesis evaluations_return_ : evaluations_return (Model := Model) d.

(** The loop over [range(len)] shifted by [start], seen from what it
    leaves in [metrics_hist_train]: [k] is the number of turns made. *)
Lemma epoch_loop_side len : ∀ start (model : Model) epoch0 s,
  ∃ k evs model' s',
    epoch_loop a d opt model epoch0 (seq start len) s
    = (inr (model', if decide (k = 0%nat) then epoch0 else (start + k - 1)%nat), s')
    ∧ (k ≤ len)%nat
    ∧ trace s' = trace s ++ evs
    ∧ count_train evs = k
    ∧ count_test_eval evs = 0%nat
    ∧ hist_test s' = hist_test s
    ∧ length (history HTrain "loss" s') = (length (history HTrain "loss" s) + k)%nat
    ∧ hist_train_epochs s'
      = (if decide (k = 0%nat) then hist_train_epochs s else Some (Z.of_nat (start + k)))
    ∧ (a_criterion a = None → k = len ∧ np_calls s' = np_calls s).
Proof.
  induction len as [|len IH]; intros start model epoch0 s.
  - exists 0%nat, [], model, s. simpl. rewrite app_nil_r. repeat split; try done; lia.
  - simpl. rewrite bind_run.
    destruct (train_returns_ model start) as [[losses model1] Htrain].
    destruct (evaluations_return_ model1 start DDev) as [metrics Htest]; [done|].
    destruct (epoch_body_side a d opt model model1 start s losses metrics Htrain Htest)
      as (s1 & Hrun & Htr & Hht & Hep & Hnp).
    destruct (epoch_body_run a d opt model model1 start s losses metrics Htrain Htest)
      as (s1' & Hrun' & _ & _ & _ & Hts).
    rewrite Hrun in Hrun'. injection Hrun' as <-. rewrite Hrun. clear Hrun.
    set (seen := appended metrics (hist_dev s)) in *.
    pose proof (history_train_loss_appended _ _ _ Hht) as Hloss.
    destruct (stop_answer a seen) eqn:Hstop.
    + exists 1%nat, (epoch_events a start seen true), model1, s1. simpl.
      replace (start + 1 - 1)%nat with start by lia.
      replace (Z.of_nat (start + 1)) with (Z.of_nat start + 1) by lia.
      split; [done|]. split; [lia|]. split; [done|].
      split; [apply count_train_epoch_events|].
      split; [unfold count_test_eval, epoch_events; simpl; by destruct (a_criterion a)|].
      split; [done|].
      split; [rewrite Hloss, length_app; simpl; lia|]. split; [done|].
      intros Hnone. exfalso. apply stop_answer_criterion in Hstop.
      rewrite Hnone in Hstop. destruct Hstop as [c Hc]. discriminate Hc.
    + destruct (IH (S start) model1 start s1)
        as (k & evs & model' & s' & -> & Hlen & Htr' & Hct & Hce & Hts' & Hloss' & Hep' & Hnp').
      exists (S k), (epoch_events a start seen false ++ evs), model', s'.
      split.
      { do 3 f_equal. destruct (decide (k = 0%nat)) as [-> | Hk]; simpl; lia. }
      split; [lia|].
      split; [rewrite Htr', Htr; by rewrite <- app_assoc|].
      split; [rewrite count_train_app, count_train_epoch_events, Hct; lia|].
      split.
      { rewrite count_test_eval_app, Hce.
        unfold count_test_eval, epoch_events. simpl. by destruct (a_criterion a). }
      split; [by rewrite Hts', Hts|].
      split; [rewrite Hloss', Hloss, length_app; simpl; lia|].
      split.
      { rewrite Hep'. simpl. destruct (decide (k = 0%nat)) as [-> | Hk].
        - rewrite Hep. f_equal. lia.
        - f_equal. lia. }
      intros Hnone. destruct (Hnp' Hnone) as [-> Hnp1].
      split; [done|]. by rewrite Hnp1, (Hnp Hnone).
Qed.

End Loop.

(** A run that trains, seen from the histories and the value returned. *)
Lemma train_epochs_training_side a d opt (model : Model) s :
  a_test_model a = None →
  (∀ (model : Model) e, ∃ r, train model opt e DTrain = inr r) →
  evaluations_return (Model := Model) d →
  ∃ k ret s',
    train_epochs a model opt d s = (inr ret, s')
    ∧ count_train (new_events s s') = k
    ∧ (k ≤ a_n_epochs a)%nat
    ∧ ret.1 = Nat.max 1 k
    ∧ hist_test s' = ret.2
    ∧ (∀ name l, ret.2 !! name = Some l → length l = 1%nat)
    ∧ length (history HTrain "loss" s') = k
    ∧ hist_train_epochs s' = (if decide (k = 0%nat) then None else Some (Z.of_nat k))
    ∧ (a_criterion a = None → k = a_n_epochs a ∧ np_calls s' = np_calls s).
Proof.
  intros Hnone Htrain Heval. unfold train_epochs.
  rewrite Hnone, bool_decide_eq_false_2 by (intros Hn; by apply Hn). simpl negb. cbv iota.
  rewrite bind_run. unfold fresh_hists at 1.
  rewrite bind_run. unfold emit at 1. simpl.
  rewrite bind_run.
  destruct (epoch_loop_side a d opt Htrain Heval (a_n_epochs a) 0%nat model 0%nat
              (Store ∅ ∅ ∅ None (trace s ++ [EvMkdir]) (np_calls s)))
    as (k & evs & model' & s1 & -> & Hlen & Htr & Hct & Hce & Hts & Hloss & Hep & Hnp).
  simpl in Htr, Hts, Hloss, Hep, Hnp.
  rewrite bind_run. unfold emit at 1. simpl.
  destruct (Heval model' (if decide (k = 0%nat) then 0%nat else (k - 1)%nat) DTest)
    as [metrics_test Htest]; [done|].
  rewrite bind_run. unfold lift at 1. rewrite Htest.
  rewrite bind_run, append_all_run.
  rewrite bind_run. unfold emit at 1. simpl.
  rewrite bind_run. unfold snapshot at 1. simpl.
  exists k. eexists. eexists. split; [reflexivity|]. simpl.
  unfold new_events. simpl. rewrite Htr, <- !app_assoc, drop_app_length.
  split.
  { rewrite !count_train_app, Hct. unfold count_train. simpl. lia. }
  split; [exact Hlen|].
  split; [destruct (decide (k = 0%nat)); lia|].
  split; [reflexivity|].
  split.
  { rewrite Hts. intros name l. rewrite appended_lookup, lookup_empty.
    destruct (metrics_test !! name); [|done]. by intros [= <-]. }
  split; [unfold history in *; simpl in *; by rewrite Hloss, lookup_empty|].
  split; [exact Hep|].
  exact Hnp.
Qed.

(** X12.  A run of [train_epochs] that trains (no [test_model], an
    optimizer, evaluations that return) returns the number of epochs it
    ran, except that it returns 1 when it ran none; the history dict it
    returns is [metrics_hist_test], in which every metric of the final
    evaluation has a list of exactly one value. *)
Theorem train_epochs_counts_epochs a (model : Model) o d s :
  a_test_model a = None →
  evaluations_return (Model := Model) d →
  counts_epochs a model (Some o) d s.
Proof.
  intros Hnone Heval.
  destruct (train_epochs_training_side a d (Some o) model s Hnone)
    as (k & ret & s' & Hrun & Hk & _ & Hret & Hts & Hone & _); [|done|].
  { intros m e. destruct (train_returns o m e DTrain) as [m' ->]. eauto. }
  exists ret, s'. rewrite Hk. by repeat split.
Qed.

(** X13.  Such a run leaves in [metrics_hist_train] one loss per epoch it
    ran and stores the number of epochs it ran under ['epochs'] (no such
    entry when it ran none). *)
Theorem train_epochs_records_train_history a (model : Model) o d s :
  a_test_model a = None →
  evaluations_return (Model := Model) d →
  records_train_history a model (Some o) d s.
Proof.
  intros Hnone Heval.
  destruct (train_epochs_training_side a d (Some o) model s Hnone)
    as (k & ret & s' & Hrun & Hk & _ & _ & _ & _ & Hloss & Hep & _); [|done|].
  { intros m e. destruct (train_returns o m e DTrain) as [m' ->]. eauto. }
  exists ret, s'. rewrite Hk. by repeat split.
Qed.

(** X14.  Without a criterion ([args.criterion is None]) such a run never
    consults [early_stop] (none of its numpy calls is made) and runs all
    [n_epochs] epochs. *)
Theorem train_epochs_without_criterion_runs_all_epochs a (model : Model) o d s :
  a_test_model a = None →
  a_criterion a = None →
  evaluations_return (Model := Model) d →
  runs_all_epochs a model (Some o) d s.
Proof.
  intros Hnone Hcrit Heval.
  destruct (train_epochs_training_side a d (Some o) model s Hnone)
    as (k & ret & s' & Hrun & Hk & _ & _ & _ & _ & _ & _ & Hnp); [|done|].
  { intros m e. destruct (train_returns o m e DTrain) as [m' ->]. eauto. }
  destruct (Hnp Hcrit) as [-> Hcalls].
  exists ret, s'. by repeat split.
Qed.

(** X15.  An epoch that does not raise appends to the dev history of each
    metric returned by its dev evaluation the value of that metric, at
    the end of the list, and leaves the dev history of every other name
    as it was. *)
Theorem epoch_appends_dev_values a d opt (model model' : Model) e s losses metrics_dev :
  train model opt e DTrain = inr (losses, model') →
  test model' e DDev d = inr metrics_dev →
  ∀ name,
    history HDev name (epoch_body a d opt model e s).2
    = history HDev name s ++ match metrics_dev !! name with
                             | Some v => [v]
                             | None => []
                             end.
Proof.
  intros Htrain Htest name.
  destruct (epoch_body_run a d opt model model' e s losses metrics_dev Htrain Htest)
    as (s' & -> & _ & _ & Hdev & _).
  unfold history. simpl. rewrite Hdev, appended_lookup.
  destruct (metrics_dev !! name); simpl; [done | by rewrite app_nil_r].
Qed.

End EpochsFurther.

(** ** Runs that raise, and [main] *)

Section RunsFurther.

Context {Model Batch : Type} `{External Model Batch}.

Lemma epoch_event_epoch_events a e seen stop : Forall epoch_event (epoch_events a e seen stop).
Proof.
  unfold epoch_events. destruct (a_criterion a); repeat constructor.
Qed.

(** Whatever happens in it, one turn of the epoch loop adds only events of
    the epoch loop to the trace. *)
Lemma epoch_body_events a d opt (model : Model) e s :
  ∃ evs, trace (epoch_body a d opt model e s).2 = trace s ++ evs ∧ Forall epoch_event evs.
Proof.
  destruct (train model opt e DTrain) as [err | [losses model']] eqn:Htrain.
  - exists [EvTrain e]. split; [|repeat constructor].
    unfold epoch_body. rewrite bind_run. unfold emit at 1.
    rewrite bind_run. unfold lift at 1. by rewrite Htrain.
  - destruct (test model' e DDev d) as [err | metrics] eqn:Htest.
    + exists [EvTrain e; EvTest DDev (dev_fold a) e]. split; [|repeat constructor].
      unfold epoch_body. rewrite bind_run. unfold emit at 1.
      rewrite bind_run. unfold lift at 1. rewrite Htrain.
      rewrite bind_run. unfold emit at 1.
      rewrite bind_run. unfold lift at 1. rewrite Htest. simpl.
      by rewrite <- app_assoc.
    + destruct (epoch_body_run a d opt model model' e s losses metrics Htrain Htest)
        as (s' & -> & Htr & _).
      eexists. split; [exact Htr | apply epoch_event_epoch_events].
Qed.

Lemma epoch_loop_events a d opt epochs : ∀ (model : Model) epoch0 s,
  ∃ evs, trace (epoch_loop a d opt model epoch0 epochs s).2 = trace s ++ evs
       ∧ Forall epoch_event evs.
Proof.
  induction epochs as [|e rest IH]; intros model epoch0 s; simpl.
  - exists []. by rewrite app_nil_r.
  - rewrite bind_run.
    destruct (epoch_body_events a d opt model e s) as (evs & Htr & Hevs).
    destruct (epoch_body a d opt model e s) as [[err | [model1 stop]] s1]; simpl in *.
    + by exists evs.
    + destruct stop.
      * by exists evs.
      * destruct (IH model1 e s1) as (evs' & Htr' & Hevs').
        exists (evs ++ evs'). split; [|by apply Forall_app].
        rewrite Htr', Htr. by rewrite <- app_assoc.
Qed.

Lemma count_final_save_app evs evs' :
  count_final_save (evs ++ evs') = (count_final_save evs + count_final_save evs')%nat.
Proof. unfold count_final_save. by rewrite List.filter_app, length_app. Qed.

Lemma epoch_events_counts evs :
  Forall epoch_event evs → count_final_save evs = 0%nat ∧ count_test_eval evs = 0%nat.
Proof.
  unfold count_final_save, count_test_eval.
  induction 1 as [|ev evs [Hs Ht] _ [IH1 IH2]]; simpl; [done|]. by rewrite Hs, Ht.
Qed.

(** X16.  Whatever its arguments, and whether it returns or raises,
    [train_epochs] evaluates the test set at most once and makes the final
    save ([evaluate=True]) exactly when it returns: a run that raises
    never makes it. *)
Theorem train_epochs_final_save_iff_returns a (model : Model) opt d s :
  ∃ evs,
    trace (train_epochs a model opt d s).2 = trace s ++ evs
    ∧ (count_test_eval evs ≤ 1)%nat
    ∧ count_final_save evs = match (train_epochs a model opt d s).1 with
                             | inr _ => 1%nat
                             | inl _ => 0%nat
                             end.
Proof.
  destruct (train_epochs a model opt d s) as [r s'] eqn:Hrun. simpl.
  revert Hrun. unfold train_epochs.
  rewrite bind_run. unfold fresh_hists at 1.
  rewrite bind_run.
  set (test_only := bool_decide (a_test_model a ≠ None)).
  set (s0 := Store ∅ ∅ ∅ None (trace s) (np_calls s)).
  assert (Hpre : ∃ pre s1,
            (if negb test_only then emit EvMkdir else mret ()) s0 = (inr (), s1)
            ∧ trace s1 = trace s ++ pre
            ∧ count_test_eval pre = 0%nat ∧ count_final_save pre = 0%nat).
  { destruct test_only; simpl.
    - exists [], s0. by rewrite app_nil_r.
    - exists [EvMkdir]. eexists. by split. }
  destruct Hpre as (pre & s1 & -> & Hpre & Hpt & Hps).
  rewrite bind_run.
  destruct (epoch_loop_events a d opt (seq 0 (if negb test_only then a_n_epochs a else 0))
              model 0%nat s1) as (evs & Htr & Hevs).
  destruct (epoch_events_counts evs Hevs) as [Hes Het].
  destruct (epoch_loop a d opt model 0%nat _ s1) as [[err | [model1 epoch]] s2]; simpl in Htr.
  - intros [= <- <-]. exists (pre ++ evs). rewrite Htr, Hpre, <- app_assoc.
    rewrite count_test_eval_app, count_final_save_app. repeat split; lia.
  - rewrite bind_run. unfold emit at 1. simpl.
    rewrite bind_run. unfold lift at 1.
    destruct (test model1 epoch DTest d) as [err | metrics].
    + intros [= <- <-]. exists (pre ++ evs ++ [EvTest DTest "test" epoch]). simpl.
      rewrite Htr, Hpre, <- !app_assoc.
      rewrite !count_test_eval_app, !count_final_save_app, Hpt, Hps, Hes, Het.
      repeat split; unfold count_test_eval, count_final_save; simpl; lia.
    + rewrite bind_run, append_all_run.
      rewrite bind_run. unfold emit at 1. simpl.
      rewrite bind_run. unfold snapshot at 1. simpl.
      intros [= <- <-].
      exists (pre ++ evs ++ [EvTest DTest "test" epoch; EvSave true test_only]). simpl.
      rewrite Htr, Hpre, <- !app_assoc.
      rewrite !count_test_eval_app, !count_final_save_app, Hpt, Hps, Hes, Het.
      repeat split; unfold count_test_eval, count_final_save; simpl; lia.
Qed.

(** X17.  A training run of the model ['dummy'] does not get past its
    first batch: [init] hands it no optimizer, so with at least one epoch
    to run and one training batch, [main] makes the model directory,
    enters [train] and raises [AttributeError]; nothing is evaluated or
    saved. *)
Theorem main_dummy_training_raises a s :
  a_model a = "dummy" →
  a_test_model a = None →
  (0 < a_n_epochs a)%nat →
  loader (Model := Model) DTrain 0 ≠ [] →
  (main (Model := Model) a s).1 = inl AttributeError
  ∧ trace (main (Model := Model) a s).2 = trace s ++ [EvMkdir; EvTrain 0].
Proof.
  intros Hdummy Hnone Hn Hbatches.
  enough (Hrun : main (Model := Model) a s
                 = (inl AttributeError,
                    Store ∅ ∅ ∅ None (trace s ++ [EvMkdir; EvTrain 0]) (np_calls s)))
    by by rewrite Hrun.
  unfold main, init. rewrite Hdummy, Hnone. simpl.
  rewrite bind_run. unfold train_epochs.
  rewrite Hnone, bool_decide_eq_false_2 by (intros Hx; by apply Hx). simpl negb. cbv iota.
  rewrite bind_run. unfold fresh_hists at 1.
  rewrite bind_run. unfold emit at 1. simpl.
  rewrite bind_run.
  destruct (a_n_epochs a) as [|n]; [lia|]. simpl seq. simpl epoch_loop.
  rewrite bind_run. unfold epoch_body.
  rewrite bind_run. unfold emit at 1.
  rewrite bind_run. unfold lift at 1.
  rewrite train_without_optimizer_raises by done. simpl.
  by rewrite <- app_assoc.
Qed.

(** X18.  With a [test_model], [main] only tests: when the evaluation of
    the picked model on the test set returns, [main] returns a history in
    which each metric of that evaluation has the one-element list of its
    value (and which has no other key), after an evaluation on the test
    set and the final save and nothing else. *)
Theorem main_test_only_returns_single_values a s path metrics :
  a_test_model a = Some path →
  test (pick_model (Model := Model) a (load_lookups a)) 0 DTest (load_lookups a) = inr metrics →
  ∃ hist,
    (main (Model := Model) a s).1 = inr hist
    ∧ (∀ name, hist !! name = (fun v => [v]) <$> metrics !! name)
    ∧ trace (main (Model := Model) a s).2
      = trace s ++ [EvTest DTest "test" 0; EvSave true true].
Proof.
  intros Hsome Htest.
  assert (Hrun : main (Model := Model) a s
                 = (inr (appended metrics ∅),
                    Store ∅ ∅ (appended metrics ∅) None
                          (trace s ++ [EvTest DTest "test" 0; EvSave true true])
                          (np_calls s))).
  { unfold main, init. simpl. rewrite bind_run.
    by rewrite (train_epochs_test_only_run a _ _ _ s path metrics Hsome Htest). }
  rewrite Hrun. simpl.
  exists (appended metrics ∅). repeat split.
  intros name. rewrite appended_lookup, lookup_empty. by destruct (metrics !! name).
Qed.

End RunsFurther.

(** ** The further theorems at work on the small setting *)

Lemma train_epochs_counts_epochs_witness :
  counts_epochs (H := toy_external) (toy_args 0 None (Some "f1_micro_fine"))
    0%nat (Some (Adam (Fin 0) (Fin 0.001))) toy_dicts empty_store.
Proof.
  apply train_epochs_counts_epochs; [reflexivity | exact toy_evaluations_return].
Defined.

Lemma train_epochs_records_train_history_witness :
  records_train_history (H := toy_external) (toy_args 3 None (Some "f1_micro_fine"))
    0%nat (Some (Adam (Fin 0) (Fin 0.001))) toy_dicts empty_store.
Proof.
  apply train_epochs_records_train_history; [reflexivity | exact toy_evaluations_return].
Defined.

Lemma train_epochs_without_criterion_runs_all_epochs_witness :
  runs_all_epochs (H := toy_external) (toy_args 3 None None)
    0%nat (Some (Adam (Fin 0) (Fin 0.001))) toy_dicts empty_store.
Proof.
  apply train_epochs_without_criterion_runs_all_epochs;
    [reflexivity | reflexivity | exact toy_evaluations_return].
Defined.

Lemma epoch_appends_dev_values_witness :
  ∃ tail, history HDev "f1_micro_fine"
            (epoch_body (H := toy_external) (toy_args 3 None None) toy_dicts
               (Some (Adam (Fin 0) (Fin 0.001))) 0%nat 0%nat empty_store).2
          = history HDev "f1_micro_fine" empty_store ++ tail.
Proof.
  destruct (train_returns (H := toy_external) (Adam (Fin 0) (Fin 0.001)) 0%nat 0%nat DTrain)
    as [model' Htrain].
  destruct (toy_evaluations_return model' 0%nat DDev) as [metrics Htest]; [done|].
  eexists.
  exact (epoch_appends_dev_values (H := toy_external) (toy_args 3 None None) toy_dicts
           (Some (Adam (Fin 0) (Fin 0.001))) 0%nat model' 0%nat empty_store _ metrics
           Htrain Htest "f1_micro_fine").
Defined.

Lemma main_dummy_training_raises_witness :
  (main (H := toy_external) (Args "dummy" 2 None None 1 "mimic3" (Fin 0) (Fin 0.001))
     empty_store).1 = inl AttributeError.
Proof.
  apply (main_dummy_training_raises (H := toy_external)
           (Args "dummy" 2 None None 1 "mimic3" (Fin 0) (Fin 0.001)) empty_store).
  - reflexivity.
  - reflexivity.
  - simpl. lia.
  - discriminate.
Defined.

Lemma main_test_only_returns_single_values_witness :
  ∃ hist,
    (main (H := toy_external) (toy_args 3 (Some "model.pth") None) empty_store).1 = inr hist.
Proof.
  destruct (toy_evaluations_return 0%nat 0%nat DTest) as [metrics Hmetrics]; [done|].
  destruct (main_test_only_returns_single_values (H := toy_external)
              (toy_args 3 (Some "model.pth") None) empty_store "model.pth" metrics
              eq_refl Hmetrics) as (hist & Hrun & _).
  by exists hist.
Defined.
